(** * seller.py: reconciliation and batching core of the marketplace sync

    A shallow embedding of the pure part of [seller.py]: the chunking
    generator [divide], the price normaliser [price_conversion], the two
    reconcilers [create_stocks] and [create_prices], and the order in which
    [main], [upload_prices] and [upload_stocks] chain them.

    Conventions of the embedding.
    - A Python [str] is a [string] holding its UTF-8 bytes.  Splitting on
      ["."] and deleting everything outside [0-9] act on UTF-8 bytes exactly
      as they act on code points, because no byte of a multi-byte sequence
      is below 128.
    - A spreadsheet cell is a [pyval]: [None], a [bool], an [int] or a [str].
      Cells that pandas reads as floating point numbers are outside the
      embedding.
    - A distributor row is a [dict] with string keys, a [gmap string pyval];
      [dict.get] of an absent key is [None].
    - An exception is a value [Raise e] of [result]; nothing in the
      reconcilers catches one.
    - The list object [offer_ids] is mutated in place by [create_stocks].
      Every function that receives it returns its final contents next to its
      own result, so that a caller which goes on using the same object sees
      the mutation. *)

From Stdlib Require Import Ascii String.
From stdpp Require Import gmap strings list pretty.

Open Scope string_scope.
Open Scope Z_scope.
Open Scope list_scope.

(** ** Python values, exceptions *)

Inductive pyval :=
| PyNone
| PyBool (b : bool)
| PyInt (z : Z)
| PyStr (s : string).

Inductive exn :=
| ValueError
| TypeError
| AttributeError
| IndexError.

Inductive result (A : Type) :=
| Ok (a : A)
| Raise (e : exn).
Arguments Ok {A} a.
Arguments Raise {A} e.

Definition bind {A B} (r : result A) (k : A → result B) : result B :=
  match r with
  | Ok a => k a
  | Raise e => Raise e
  end.

Notation "x ←! r ; k" := (bind r (λ x, k))
  (at level 20, r at level 100, k at level 200, only parsing, right associativity).
Notation "' p ←! r ; k" := (bind r (λ x, match x with p => k end))
  (at level 20, p pattern, r at level 100, k at level 200, only parsing, right associativity).

#[global] Instance pyval_eq_dec : EqDecision pyval.
Proof. solve_decision. Defined.
#[global] Instance exn_eq_dec : EqDecision exn.
Proof. solve_decision. Defined.

(** ** Built-ins used by the module *)

Module Py.

(** [str(v)] *)
Definition str (v : pyval) : string :=
  match v with
  | PyNone => "None"
  | PyBool true => "True"
  | PyBool false => "False"
  | PyInt z => pretty z
  | PyStr s => s
  end.

(** [d.get(k)] *)
Definition get (d : gmap string pyval) (k : string) : pyval :=
  default PyNone (d !! k).

(** The characters [int] skips at both ends of an ASCII string:
    tab, line feed, vertical tab, form feed, carriage return, space. *)
Definition is_space (c : ascii) : bool :=
  let n := N_of_ascii c in
  ((9 <=? n) && (n <=? 13) || (n =? 32))%N.

Definition digit_val (c : ascii) : option Z :=
  let n := N_of_ascii c in
  if ((48 <=? n) && (n <=? 57))%N then Some (Z.of_N n - 48) else None.

Definition is_digit (c : ascii) : bool :=
  match digit_val c with Some _ => true | None => false end.

Fixpoint lstrip (s : string) : string :=
  match s with
  | String c s' => if is_space c then lstrip s' else s
  | EmptyString => EmptyString
  end.

Fixpoint rstrip (s : string) : string :=
  match s with
  | String c s' =>
      match rstrip s' with
      | EmptyString => if is_space c then EmptyString else String c EmptyString
      | r => String c r
      end
  | EmptyString => EmptyString
  end.

(** Decimal digits with single underscores between digits; [prev] tells
    whether the previous character was a digit. *)
Fixpoint digits (s : string) (acc : Z) (prev : bool) : option Z :=
  match s with
  | EmptyString => if prev then Some acc else None
  | String c s' =>
      match digit_val c with
      | Some d => digits s' (acc * 10 + d) true
      | None =>
          if Ascii.eqb c "_" && prev then digits s' acc false else None
      end
  end.

(** An optional sign in front of the digits. *)
Definition sign (body : string) : bool * string :=
  match body with
  | String c r =>
      if Ascii.eqb c "-" then (true, r)
      else if Ascii.eqb c "+" then (false, r)
      else (false, body)
  | EmptyString => (false, body)
  end.

(** The code points above 127 that [int] reads as blanks, and the zeros of
    the blocks of ten decimal digits it reads as ['0' .. '9'] (Unicode
    14.0, the tables of CPython 3.11). *)
Definition unicode_spaces : list N :=
  [133; 160; 5760; 8192; 8193; 8194; 8195; 8196; 8197; 8198; 8199; 8200;
   8201; 8202; 8232; 8233; 8239; 8287; 12288]%N.

Definition unicode_zeros : list N :=
  [1632; 1776; 1984; 2406; 2534; 2662; 2790; 2918; 3046; 3174; 3302; 3430;
   3558; 3664; 3792; 3872; 4160; 4240; 6112; 6160; 6470; 6608; 6784; 6800;
   6992; 7088; 7232; 7248; 42528; 43216; 43264; 43472; 43504; 43600; 44016;
   65296; 66720; 68912; 69734; 69872; 69942; 70096; 70384; 70736; 70864;
   71248; 71360; 71472; 71904; 72016; 72784; 73040; 73120; 92768; 92864;
   93008; 120782; 120792; 120802; 120812; 120822; 123200; 123632; 125264;
   130032]%N.

(** The code points of a [str] from its UTF-8 bytes: [need] bytes of the
    current sequence are still to come, [acc] holds its bits so far, [lo]
    is the least code point its length may encode.  [None] for bytes that
    encode no [str]. *)
Fixpoint code_points (s : string) (need : nat) (acc lo : N)
    : option (list N) :=
  match s with
  | EmptyString => match need with O => Some [] | S _ => None end
  | String c s' =>
      let b := N_of_ascii c in
      match need with
      | O =>
          if (b <? 128)%N then cons b <$> code_points s' 0 0 0
          else if ((192 <=? b) && (b <? 224))%N
          then code_points s' 1 (b - 192) 128
          else if ((224 <=? b) && (b <? 240))%N
          then code_points s' 2 (b - 224) 2048
          else if ((240 <=? b) && (b <? 248))%N
          then code_points s' 3 (b - 240) 65536
          else None
      | S need' =>
          if ((128 <=? b) && (b <? 192))%N then
            let acc := (acc * 64 + (b - 128))%N in
            match need' with
            | O =>
                if ((lo <=? acc) && (acc <? 1114112)
                    && negb ((55296 <=? acc) && (acc <? 57344)))%N
                then cons acc <$> code_points s' 0 0 0
                else None
            | S _ => code_points s' need' acc lo
            end
          else None
      end
  end.

(** What [int] makes of one code point before it parses: an ASCII
    character stays, a blank becomes a space, a decimal digit becomes its
    ASCII digit, anything else is refused. *)
Definition ascii_of_code_point (cp : N) : option ascii :=
  if (cp <? 128)%N then Some (ascii_of_N cp)
  else if existsb (N.eqb cp) unicode_spaces then Some " "%char
  else
    match List.find (λ zero, (zero <=? cp) && (cp <? zero + 10))%N unicode_zeros with
    | Some zero => Some (ascii_of_N (48 + (cp - zero)))
    | None => None
    end.

(** The ASCII text [int] parses for a [str]. *)
Definition ascii_form (s : string) : option string :=
  cps ← code_points s 0 0 0;
  chars ← mapM ascii_of_code_point cps;
  Some (string_of_list_ascii chars).

Fixpoint count_digits (s : string) : nat :=
  match s with
  | EmptyString => O
  | String c s' => if is_digit c then S (count_digits s') else count_digits s'
  end.

(** The most digits [int] converts, [sys.get_int_max_str_digits()] as the
    interpreter starts. *)
Definition max_str_digits : nat := 4300.

(** [int(s)] for a [str] in base ten: blanks at both ends, an optional
    sign, then the digits, single underscores allowed between them, of any
    script; [ValueError] for anything else and for more than
    [max_str_digits] digits. *)
Definition int_of_str (s : string) : result Z :=
  match ascii_form s with
  | None => Raise ValueError
  | Some buffer =>
      let '(neg, ds) := sign (rstrip (lstrip buffer)) in
      match digits ds 0 false with
      | Some z =>
          if (max_str_digits <? count_digits ds)%nat then Raise ValueError
          else Ok (if neg : bool then - z else z)
      | None => Raise ValueError
      end
  end.

(** [int(v)] *)
Definition int (v : pyval) : result Z :=
  match v with
  | PyNone => Raise TypeError
  | PyBool b => Ok (if b then 1 else 0)
  | PyInt z => Ok z
  | PyStr s => int_of_str s
  end.

(** [s.split(sep)] for a one-character separator. *)
Fixpoint split (sep : ascii) (s : string) : list string :=
  match s with
  | EmptyString => [EmptyString]
  | String c s' =>
      if Ascii.eqb c sep then EmptyString :: split sep s'
      else match split sep s' with
           | p :: ps => String c p :: ps
           | [] => [String c EmptyString]
           end
  end.

(** [v.split(".")]: only a [str] has the method. *)
Definition split_dot (v : pyval) : result (list string) :=
  match v with
  | PyStr s => Ok (split "." s)
  | _ => Raise AttributeError
  end.

(** [l[i]] for [0 <= i] *)
Definition index {A} (l : list A) (i : nat) : result A :=
  match l !! i with
  | Some x => Ok x
  | None => Raise IndexError
  end.

(** [re.sub("[^0-9]", "", s)] *)
Fixpoint sub_non_digits (s : string) : string :=
  match s with
  | EmptyString => EmptyString
  | String c s' =>
      if is_digit c then String c (sub_non_digits s') else sub_non_digits s'
  end.

(** [x in l] *)
Definition contains (x : string) (l : list string) : bool :=
  bool_decide (x ∈ l).

(** [l.remove(x)]: drops the first occurrence, [ValueError] if there is
    none. *)
Fixpoint remove (x : string) (l : list string) : result (list string) :=
  match l with
  | [] => Raise ValueError
  | y :: l' =>
      if decide (y = x) then Ok l'
      else l'' ←! remove x l'; Ok (y :: l'')
  end.

(** [len(range(start, stop, step))] for [step <> 0] *)
Definition range_len (start stop step : Z) : Z :=
  if 0 <? step then
    if start <? stop then (stop - start - 1) / step + 1 else 0
  else
    if stop <? start then (start - stop - 1) / (- step) + 1 else 0.

(** [list(range(start, stop, step))] *)
Definition range (start stop step : Z) : result (list Z) :=
  if step =? 0 then Raise ValueError
  else Ok ((λ k : nat, start + Z.of_nat k * step)
             <$> seq 0 (Z.to_nat (range_len start stop step))).

(** A slice bound brought into [0 .. len] *)
Definition slice_bound (len i : Z) : Z :=
  if i <? 0 then Z.max (i + len) 0 else Z.min i len.

(** [l[i:j]] *)
Definition slice {A} (l : list A) (i j : Z) : list A :=
  let len := Z.of_nat (length l) in
  let lo := slice_bound len i in
  let hi := slice_bound len j in
  take (Z.to_nat (hi - lo)) (drop (Z.to_nat lo) l).

End Py.

(** ** Payload entries *)

(** [{"offer_id": ..., "stock": ...}] *)
Record stock_entry := StockEntry {
  stock_offer_id : string;
  stock : Z
}.

(** [{"auto_action_enabled": ..., "currency_code": ..., "offer_id": ...,
      "old_price": ..., "price": ...}] *)
Record price_entry := PriceEntry {
  auto_action_enabled : string;
  currency_code : string;
  price_offer_id : string;
  old_price : string;
  price : string
}.

#[global] Instance stock_entry_eq_dec : EqDecision stock_entry.
Proof. solve_decision. Defined.
#[global] Instance price_entry_eq_dec : EqDecision price_entry.
Proof. solve_decision. Defined.

Abbreviation watch := (gmap string pyval) (only parsing).

(** ** The functions of the module *)

(** [price_conversion]: [re.sub("[^0-9]", "", price.split(".")[0])] *)
Definition price_conversion (price : pyval) : result string :=
  parts ←! Py.split_dot price;
  head ←! Py.index parts 0;
  Ok (Py.sub_non_digits head).

(** The branch of [create_stocks] that turns the quantity cell into a
    stock. *)
Definition stock_of (watch : watch) : result Z :=
  let count := Py.str (Py.get watch "Количество") in
  if String.eqb count ">10" then Ok 100
  else if String.eqb count "1" then Ok 0
  else Py.int (Py.get watch "Количество").

(** First loop of [create_stocks]; [stocks] and [offer_ids] are the two
    lists it mutates. *)
Fixpoint create_stocks_match (watch_remnants : list watch)
    (stocks : list stock_entry) (offer_ids : list string)
    : result (list stock_entry * list string) :=
  match watch_remnants with
  | [] => Ok (stocks, offer_ids)
  | watch :: rest =>
      if Py.contains (Py.str (Py.get watch "Код")) offer_ids then
        stock ←! stock_of watch;
        let stocks := stocks ++ [StockEntry (Py.str (Py.get watch "Код")) stock] in
        offer_ids ←! Py.remove (Py.str (Py.get watch "Код")) offer_ids;
        create_stocks_match rest stocks offer_ids
      else create_stocks_match rest stocks offer_ids
  end.

(** Second loop of [create_stocks]. *)
Fixpoint create_stocks_missing (todo : list string) (stocks : list stock_entry)
    : list stock_entry :=
  match todo with
  | [] => stocks
  | offer_id :: rest =>
      create_stocks_missing rest (stocks ++ [StockEntry offer_id 0])
  end.

(** [create_stocks]: the returned pair is the list of entries and the
    contents of the caller's [offer_ids] object when the call returns. *)
Definition create_stocks (watch_remnants : list watch) (offer_ids : list string)
    : result (list stock_entry * list string) :=
  '(stocks, offer_ids) ←! create_stocks_match watch_remnants [] offer_ids;
  Ok (create_stocks_missing offer_ids stocks, offer_ids).

(** Loop of [create_prices]. *)
Fixpoint create_prices_loop (watch_remnants : list watch)
    (prices : list price_entry) (offer_ids : list string)
    : result (list price_entry * list string) :=
  match watch_remnants with
  | [] => Ok (prices, offer_ids)
  | watch :: rest =>
      if Py.contains (Py.str (Py.get watch "Код")) offer_ids then
        converted ←! price_conversion (Py.get watch "Цена");
        let price :=
          PriceEntry "UNKNOWN" "RUB" (Py.str (Py.get watch "Код")) "0" converted in
        create_prices_loop rest (prices ++ [price]) offer_ids
      else create_prices_loop rest prices offer_ids
  end.

(** [create_prices], with the contents of [offer_ids] on return. *)
Definition create_prices (watch_remnants : list watch) (offer_ids : list string)
    : result (list price_entry * list string) :=
  create_prices_loop watch_remnants [] offer_ids.

(** [list(divide(lst, n))]: the generator run to its end. *)
Definition divide {A} (lst : list A) (n : Z) : result (list (list A)) :=
  starts ←! Py.range 0 (Z.of_nat (length lst)) n;
  Ok ((λ i, Py.slice lst i (i + n)) <$> starts).

(** ** Orchestration

    The marketplace is an external collaborator: what [get_offer_ids]
    returned is an argument, and the calls of [update_stocks] and
    [update_price] are recorded, in order, as the requests they carry.
    Transport is taken to succeed. *)

Inductive request :=
| UpdateStocks (stocks : list stock_entry)
| UpdatePrice (prices : list price_entry).

#[global] Instance request_eq_dec : EqDecision request.
Proof. solve_decision. Defined.

(** [upload_prices]: requests sent, and the returned [prices]. *)
Definition upload_prices (fetched : list string) (watch_remnants : list watch)
    : result (list request * list price_entry) :=
  let offer_ids := fetched in
  '(prices, _) ←! create_prices watch_remnants offer_ids;
  chunks ←! divide prices 1000;
  Ok (UpdatePrice <$> chunks, prices).

(** [upload_stocks]: requests sent, and the returned pair. *)
Definition upload_stocks (fetched : list string) (watch_remnants : list watch)
    : result (list request * (list stock_entry * list stock_entry)) :=
  let offer_ids := fetched in
  '(stocks, _) ←! create_stocks watch_remnants offer_ids;
  chunks ←! divide stocks 100;
  let not_empty := filter (λ s, stock s ≠ 0) stocks in
  Ok (UpdateStocks <$> chunks, (not_empty, stocks)).

(** [main]: one [offer_ids] object is fetched and handed first to
    [create_stocks], then to [create_prices].  The result is the list of
    requests sent and the exception printed by the handler, if any. *)
Definition main (fetched : list string) (watch_remnants : list watch)
    : list request * option exn :=
  let offer_ids := fetched in
  match create_stocks watch_remnants offer_ids with
  | Raise e => ([], Some e)
  | Ok (stocks, offer_ids) =>
      match divide stocks 100 with
      | Raise e => ([], Some e)
      | Ok stock_chunks =>
          let sent := UpdateStocks <$> stock_chunks in
          match create_prices watch_remnants offer_ids with
          | Raise e => (sent, Some e)
          | Ok (prices, offer_ids) =>
              match divide prices 900 with
              | Raise e => (sent, Some e)
              | Ok price_chunks => (sent ++ (UpdatePrice <$> price_chunks), None)
              end
          end
      end
  end.

(** ** Rows used in the examples *)

(** [{"Код": code_cell, "Количество": quantity_cell, "Цена": price_cell}] *)
Definition row (code_cell quantity_cell price_cell : pyval) : watch :=
  <["Код" := code_cell]>
    (<["Количество" := quantity_cell]> (<["Цена" := price_cell]> ∅)).

(** Digits of a string, by position: what is left when every character
    outside ['0' .. '9'] is dropped. *)
Definition keep_digits (s : string) : string :=
  string_of_list_ascii
    (filter (λ c, (48 ≤ N_of_ascii c ≤ 57)%N) (list_ascii_of_string s)).

Definition no_dot (s : string) : Prop :=
  "."%char ∉ list_ascii_of_string s.

Definition no_digit (s : string) : Prop :=
  ∀ c, c ∈ list_ascii_of_string s → ¬ (48 ≤ N_of_ascii c ≤ 57)%N.

(** Where a string is cut: the tail after the cut is empty or starts with
    the dot. *)
Definition dot_or_end (rest : string) : Prop :=
  rest = "" ∨ ∃ r, rest = String "." r.

(** ** Vocabulary of the statements about the reconcilers

    The definitions below follow the wording of the specification, not the
    loops of the module: the reconcilers are compared with them. *)

(** The stringified code and the quantity cell of a row. *)
Definition code (w : watch) : string := Py.str (Py.get w "Код").
Definition quantity (w : watch) : pyval := Py.get w "Количество".


(** A string that [int] accepts. *)
Definition numeric (q : string) : Prop := ∃ z, Py.int_of_str q = Ok z.

(** A non-empty string of the characters ['0' .. '9']. *)
Definition digit_string (q : string) : Prop :=
  q ≠ "" ∧ Forall (λ c, (48 ≤ N_of_ascii c ≤ 57)%N) (list_ascii_of_string q).

(** Left-to-right conversion of a list that stops at the first exception. *)
Fixpoint map_result {A B} (f : A → result B) (l : list A) : result (list B) :=
  match l with
  | [] => Ok []
  | x :: l' => y ←! f x; ys ←! map_result f l'; Ok (y :: ys)
  end.

(** The entry a matched row gives, for stocks and for prices. *)
Definition stock_entry_for (w : watch) : result stock_entry :=
  z ←! stock_of w; Ok (StockEntry (code w) z).

Definition price_entry_for (w : watch) : result price_entry :=
  p ←! price_conversion (Py.get w "Цена");
  Ok (PriceEntry "UNKNOWN" "RUB" (code w) "0" p).

Definition zero_stock (offer_id : string) : stock_entry :=
  StockEntry offer_id 0.

(** The rows that are the first of the file to carry their code, in file
    order. *)
Fixpoint first_by_code (ws : list watch) : list watch :=
  match ws with
  | [] => []
  | w :: ws' => w :: filter (λ w', code w' ≠ code w) (first_by_code ws')
  end.

(** The rows whose code is an offer identifier. *)
Definition matching (ids : list string) (ws : list watch) : list watch :=
  filter (λ w, code w ∈ ids) ws.

(** The identifiers no row carries, in marketplace order. *)
Definition missing (ws : list watch) (ids : list string) : list string :=
  filter (λ id, id ∉ code <$> ws) ids.

(** How many times a string occurs in a list. *)
Definition occurrences (c : string) (l : list string) : nat :=
  length (filter (λ x, x = c) l).

(** The chunks by position: chunk [k] is the [N] elements from [k * N]. *)
Definition chunks_at {A} (N : nat) (lst : list A) (cnt : nat) : list (list A) :=
  (λ k, take N (drop (k * N) lst)) <$> seq 0 cnt.

(** ** The marketplace as seen by the module

    [get_product_list], [update_stocks] and [update_price] are HTTP calls.
    What the marketplace answers is not the module's to decide, so the
    answers are arguments: [server k] is the answer to the [k]-th listing
    request, [transport k] the fate of the [k]-th update request. *)

(** What [requests] may raise in a call: the two classes [main] handles by
    name, the [HTTPError] of [raise_for_status], and the decoding error of
    [response.json()]. *)
Inductive io_error :=
| ReadTimeout
| ConnectionError
| HTTPError
| JSONDecodeError.

#[global] Instance io_error_eq_dec : EqDecision io_error.
Proof. solve_decision. Defined.

(** An exception of the interpreter or of the transport. *)
Inductive failure :=
| PyExn (e : exn)
| IoExn (e : io_error).

#[global] Instance failure_eq_dec : EqDecision failure.
Proof. solve_decision. Defined.

Inductive outcome (A : Type) :=
| Done (a : A)
| Failed (f : failure).
Arguments Done {A} a.
Arguments Failed {A} f.

(** The ["result"] object of a listing response: [page_items] is [None]
    when the key ["items"] is absent. *)
Record page := Page {
  page_items : option (list (gmap string pyval));
  page_total : pyval;
  page_last_id : pyval
}.

(** What [get_product_list] does on one call: it raises, or returns
    [response_object.get("result")], which is [None] when the key is
    absent. *)
Inductive listing_reply :=
| ReplyError (e : io_error)
| ReplyNoResult
| ReplyPage (p : page).

(** [total == len(product_list)]: a number against an [int]. *)
Definition eq_len (total : pyval) (n : nat) : bool :=
  match total with
  | PyInt z => z =? Z.of_nat n
  | PyBool b => (if b then 1 else 0) =? Z.of_nat n
  | _ => false
  end.

(** The [while True] loop of [get_offer_ids].  [fuel] bounds the number of
    requests; the result is the cursors sent, in order, and the final
    [product_list] or the exception, or [None] while the loop is still
    running. *)
Fixpoint get_offer_ids_loop (fuel : nat) (server : nat → listing_reply)
    (call : nat) (last_id : pyval) (product_list : list (gmap string pyval))
    : list pyval * option (outcome (list (gmap string pyval))) :=
  match fuel with
  | O => ([], None)
  | S fuel' =>
      match server call with
      | ReplyError e => ([last_id], Some (Failed (IoExn e)))
      | ReplyNoResult => ([last_id], Some (Failed (PyExn AttributeError)))
      | ReplyPage some_prod =>
          match page_items some_prod with
          | None => ([last_id], Some (Failed (PyExn TypeError)))
          | Some items =>
              let product_list := product_list ++ items in
              let total := page_total some_prod in
              if eq_len total (length product_list)
              then ([last_id], Some (Done product_list))
              else
                let '(sent, r) :=
                  get_offer_ids_loop fuel' server (S call)
                    (page_last_id some_prod) product_list in
                (last_id :: sent, r)
          end
      end
  end.

(** [get_offer_ids]: the cursors sent and the list of
    [product.get("offer_id")]. *)
Definition get_offer_ids (fuel : nat) (server : nat → listing_reply)
    : list pyval * option (outcome (list pyval)) :=
  let '(sent, r) := get_offer_ids_loop fuel server 0 (PyStr "") [] in
  (sent,
   match r with
   | Some (Done product_list) =>
       Some (Done ((λ product, Py.get product "offer_id") <$> product_list))
   | Some (Failed f) => Some (Failed f)
   | None => None
   end).

(** A [for] loop over prepared requests, each sent by [update_stocks] or
    [update_price]: the requests attempted, and the exception that ended the
    loop, if any.  [k] is the number of update requests made before. *)
Fixpoint submit (transport : nat → option io_error) (k : nat)
    (requests : list request) : list request * option io_error :=
  match requests with
  | [] => ([], None)
  | r :: rest =>
      match transport k with
      | Some e => ([r], Some e)
      | None =>
          let '(sent, err) := submit transport (S k) rest in
          (r :: sent, err)
      end
  end.

(** The three [except] clauses of [main], by the line they print. *)
Inductive printed :=
| TimeoutMessage
| ConnectionMessage
| Error2 (f : failure).

#[global] Instance printed_eq_dec : EqDecision printed.
Proof. solve_decision. Defined.

Definition handler (f : failure) : printed :=
  match f with
  | IoExn ReadTimeout => TimeoutMessage
  | IoExn ConnectionError => ConnectionMessage
  | _ => Error2 f
  end.

(** [main] with a transport that may fail, after [get_offer_ids] and
    [download_stock] have returned [fetched] and [watch_remnants]: the
    update requests attempted and the line printed, if any. *)
Definition main_io (transport : nat → option io_error)
    (fetched : list string) (watch_remnants : list watch)
    : list request * option printed :=
  let offer_ids := fetched in
  match create_stocks watch_remnants offer_ids with
  | Raise e => ([], Some (handler (PyExn e)))
  | Ok (stocks, offer_ids) =>
      match divide stocks 100 with
      | Raise e => ([], Some (handler (PyExn e)))
      | Ok stock_chunks =>
          match submit transport 0 (UpdateStocks <$> stock_chunks) with
          | (sent, Some e) => (sent, Some (handler (IoExn e)))
          | (sent, None) =>
              match create_prices watch_remnants offer_ids with
              | Raise e => (sent, Some (handler (PyExn e)))
              | Ok (prices, offer_ids) =>
                  match divide prices 900 with
                  | Raise e => (sent, Some (handler (PyExn e)))
                  | Ok price_chunks =>
                      let '(sent', err) :=
                        submit transport (length stock_chunks)
                          (UpdatePrice <$> price_chunks) in
                      (sent ++ sent', handler ∘ IoExn <$> err)
                  end
              end
          end
      end
  end.

(** ** Vocabulary of the statements about the listing loop *)

(** The items and the cursor a reply carries. *)
Definition reply_items (r : listing_reply) : list (gmap string pyval) :=
  match r with
  | ReplyPage p =>
      match page_items p with
      | Some items => items
      | None => []
      end
  | _ => []
  end.

Definition reply_last_id (r : listing_reply) : pyval :=
  match r with
  | ReplyPage p => page_last_id p
  | _ => PyNone
  end.

(** The items of the first [n] replies. *)
Definition gathered (server : nat → listing_reply) (n : nat)
    : list (gmap string pyval) :=
  concat ((λ k, reply_items (server k)) <$> seq 0 n).

(** The cursor of the [k]-th request: empty at first, then the [last_id] of
    the reply before. *)
Definition cursor (server : nat → listing_reply) (k : nat) : pyval :=
  match k with
  | O => PyStr ""
  | S k' => reply_last_id (server k')
  end.

(** Reply [k] is a page with items whose total is the number of items
    gathered so far, this page included; or a page with items whose total
    is another number. *)
Definition closes (server : nat → listing_reply) (k : nat) : Prop :=
  ∃ p items, server k = ReplyPage p ∧ page_items p = Some items
    ∧ eq_len (page_total p) (length (gathered server (S k))) = true.

Definition carries_on (server : nat → listing_reply) (k : nat) : Prop :=
  ∃ p items, server k = ReplyPage p ∧ page_items p = Some items
    ∧ eq_len (page_total p) (length (gathered server (S k))) = false.

(** The exception a reply ends the loop with: the one [get_product_list]
    raised, [AttributeError] for [None.get], [TypeError] for
    [extend(None)]; none for a page with items. *)
Definition reply_failure (r : listing_reply) : option failure :=
  match r with
  | ReplyError e => Some (IoExn e)
  | ReplyNoResult => Some (PyExn AttributeError)
  | ReplyPage p =>
      match page_items p with
      | None => Some (PyExn TypeError)
      | Some _ => None
      end
  end.

(** A request within the sizes [main] asks [divide] for, and not empty. *)
Definition within_caps (r : request) : Prop :=
  match r with
  | UpdateStocks stocks => 1 ≤ Z.of_nat (length stocks) ≤ 100
  | UpdatePrice prices => 1 ≤ Z.of_nat (length prices) ≤ 900
  end.

(** The number of characters of a [str]: the bytes of its UTF-8 form that
    are not continuation bytes. *)
Definition char_count (s : string) : nat :=
  length (filter (λ c, ¬ (128 ≤ N_of_ascii c < 192)%N)
            (list_ascii_of_string s)).

(** A string of the characters ['0' .. '9'] only, possibly empty. *)
Definition digits_only (s : string) : Prop :=
  Forall (λ c, (48 ≤ N_of_ascii c ≤ 57)%N) (list_ascii_of_string s).

(** * The price normaliser *)

Section PriceConversion.

Lemma is_digit_range c :
  Py.is_digit c = true ↔ (48 ≤ N_of_ascii c ≤ 57)%N.
Proof.
  unfold Py.is_digit, Py.digit_val.
  destruct (48 <=? N_of_ascii c)%N eqn:Hlo;
    destruct (N_of_ascii c <=? 57)%N eqn:Hhi; simpl;
    rewrite ?N.leb_le, ?N.leb_gt in *; split; (lia || discriminate || done).
Qed.

Lemma sub_non_digits_keep s : Py.sub_non_digits s = keep_digits s.
Proof.
  unfold keep_digits. induction s as [|c s IH]; [done|].
  cbn [Py.sub_non_digits list_ascii_of_string].
  rewrite filter_cons. destruct (Py.is_digit c) eqn:Hd.
  - apply is_digit_range in Hd. rewrite decide_True by done.
    cbn. by rewrite IH.
  - rewrite decide_False; [done|].
    intros Hr. apply is_digit_range in Hr. congruence.
Qed.

Lemma keep_digits_no_digit s : no_digit s → keep_digits s = "".
Proof.
  unfold keep_digits, no_digit. induction s as [|c s IH]; [done|].
  intros Hnd. cbn [list_ascii_of_string] in *. rewrite filter_cons.
  rewrite decide_False by (apply Hnd; left).
  apply IH. intros c' Hc'. apply Hnd. by right.
Qed.

Lemma split_head p rest :
  no_dot p → dot_or_end rest →
  ∃ tl, Py.split "." (p +:+ rest) = p :: tl.
Proof.
  unfold no_dot. induction p as [|c p IH]; intros Hp Hrest.
  - destruct Hrest as [->|[r ->]]; cbn; eauto.
  - cbn [list_ascii_of_string String.append] in *.
    apply not_elem_of_cons in Hp as [Hc Hp].
    destruct (IH Hp Hrest) as [tl Htl].
    change (String c p +:+ rest) with (String c (p +:+ rest)).
    cbn [Py.split]. rewrite Htl.
    destruct (Ascii.eqb_spec c ".") as [->|_]; [done|]. eauto.
Qed.

Lemma cut_at_first_dot s :
  ∃ p rest, s = p +:+ rest ∧ no_dot p ∧ dot_or_end rest.
Proof.
  unfold no_dot, dot_or_end. induction s as [|c s (p & rest & -> & Hp & Hrest)].
  - exists "", "". split_and!; [done|apply not_elem_of_nil|by left].
  - destruct (Ascii.eqb_spec c ".") as [->|Hc].
    + exists "", (String "." (p +:+ rest)).
      split_and!; [done|apply not_elem_of_nil|right; eauto].
    + exists (String c p), rest. cbn [list_ascii_of_string].
      split_and!; [done| |done].
      apply not_elem_of_cons. split; [congruence|done].
Qed.

Lemma price_conversion_cut p rest :
  no_dot p → dot_or_end rest →
  price_conversion (PyStr (p +:+ rest)) = Ok (keep_digits p).
Proof.
  intros Hp Hrest. destruct (split_head p rest Hp Hrest) as [tl Htl].
  unfold price_conversion. cbn. rewrite Htl. cbn.
  by rewrite sub_non_digits_keep.
Qed.

End PriceConversion.

(** C6. On a string, [price_conversion] returns the digits of the part that
    precedes the first ["."], every other character removed: whenever the
    input is cut into [p] and [rest] with no dot in [p] and [rest] empty or
    starting with the dot, the result is the digits of [p]; every string has
    such a cut.  The docstring values follow, ["1.234.567 руб."] gives
    ["1"], and a part [p] without digits gives the empty string. *)
Theorem price_conversion_digits_before_first_dot :
  (∀ p rest, no_dot p → dot_or_end rest →
     price_conversion (PyStr (p +:+ rest)) = Ok (keep_digits p))
  ∧ (∀ s, ∃ p rest, s = p +:+ rest ∧ no_dot p ∧ dot_or_end rest)
  ∧ price_conversion (PyStr "13'899.99 руб.") = Ok "13899"
  ∧ price_conversion (PyStr "5'990.00 руб.") = Ok "5990"
  ∧ price_conversion (PyStr "1.234.567 руб.") = Ok "1"
  ∧ (∀ p rest, no_dot p → dot_or_end rest → no_digit p →
       price_conversion (PyStr (p +:+ rest)) = Ok "").
Proof.
  split_and!; try reflexivity.
  - apply price_conversion_cut.
  - apply cut_at_first_dot.
  - intros p rest Hp Hrest Hnd.
    rewrite price_conversion_cut by done. by rewrite keep_digits_no_digit.
Qed.

Lemma price_conversion_digits_before_first_dot_witness :
  price_conversion (PyStr ("6'300" +:+ ".50 руб.")) = Ok (keep_digits "6'300")
  ∧ price_conversion (PyStr (" руб" +:+ ".")) = Ok "".
Proof.
  destruct price_conversion_digits_before_first_dot as (Hcut & _ & _ & _ & _ & Hempty).
  split.
  - apply Hcut; [|right; eauto].
    apply (bool_decide_unpack _). by vm_compute.
  - apply Hempty; [|right; eauto|].
    + apply (bool_decide_unpack _). by vm_compute.
    + unfold no_digit. apply Forall_forall.
      apply (bool_decide_unpack _). by vm_compute.
Defined.

(** C7. A cell that is not a string makes [price_conversion] raise
    [AttributeError] (the module's own docstring shows it for a number);
    no string is returned. *)
Theorem price_conversion_non_string (v : pyval) :
  (∀ s, v ≠ PyStr s) → price_conversion v = Raise AttributeError.
Proof.
  intros Hv. destruct v; try reflexivity. by destruct (Hv s).
Qed.

Lemma price_conversion_non_string_witness :
  price_conversion (PyInt 6300) = Raise AttributeError.
Proof. apply price_conversion_non_string. intros s. discriminate. Defined.

(** * The chunking generator *)

Section Divide.
Context {A : Type}.
Implicit Types (lst : list A) (n i : Z) (N k cnt : nat).

Lemma slice_step lst i n :
  0 ≤ i → 0 < n →
  Py.slice lst i (i + n) = take (Z.to_nat n) (drop (Z.to_nat i) lst).
Proof.
  intros Hi Hn. unfold Py.slice, Py.slice_bound.
  destruct (Z.ltb_spec i 0) as [?|_]; [lia|].
  destruct (Z.ltb_spec (i + n) 0) as [?|_]; [lia|].
  destruct (decide (i + n ≤ Z.of_nat (length lst))) as [Hin|Hout].
  - do 2 f_equal; lia.
  - rewrite (take_ge _ (Z.to_nat n)) by (rewrite length_drop; lia).
    rewrite (Z.min_r (i + n)) by lia.
    destruct (decide (i ≤ Z.of_nat (length lst))) as [Hle|Hgt].
    + rewrite Z.min_l by lia. apply take_ge. rewrite length_drop. lia.
    + rewrite Z.min_r by lia. rewrite !drop_ge by lia. apply take_nil.
Qed.

Lemma divide_chunks_at lst n :
  0 < n →
  divide lst n =
    Ok (chunks_at (Z.to_nat n) lst
          (Z.to_nat (Py.range_len 0 (Z.of_nat (length lst)) n))).
Proof.
  intros Hn. unfold divide, Py.range.
  destruct (Z.eqb_spec n 0) as [?|_]; [lia|]. cbn [bind]. f_equal.
  unfold chunks_at. rewrite <- list_fmap_compose.
  apply list_fmap_ext. intros _ k _. cbn.
  rewrite slice_step by lia. do 2 f_equal. lia.
Qed.

Lemma concat_chunks_at N lst cnt :
  concat (chunks_at N lst cnt) = take (cnt * N) lst.
Proof.
  unfold chunks_at. induction cnt as [|cnt IH]; [done|].
  rewrite seq_S, fmap_app, concat_app, IH. cbn.
  rewrite app_nil_r, take_take_drop. f_equal. lia.
Qed.

Lemma length_chunks_at N lst cnt : length (chunks_at N lst cnt) = cnt.
Proof. unfold chunks_at. by rewrite length_fmap, length_seq. Qed.

Lemma lookup_chunks_at N lst cnt k c :
  chunks_at N lst cnt !! k = Some c →
  (k < cnt)%nat ∧ c = take N (drop (k * N) lst).
Proof.
  unfold chunks_at. rewrite list_lookup_fmap. intros Hc.
  destruct (seq 0 cnt !! k) as [k'|] eqn:Hk; [|done].
  apply lookup_seq in Hk as [-> ?]. by simplify_eq/=.
Qed.

(** How many chunks [range(0, len, n)] starts: the ceiling of [len / n]. *)
Lemma range_len_ceil len n :
  0 ≤ len → 0 < n →
  let cnt := Py.range_len 0 len n in
  0 ≤ cnt ∧ len ≤ cnt * n ∧ (0 < cnt → (cnt - 1) * n < len).
Proof.
  intros Hlen Hn. unfold Py.range_len.
  destruct (Z.ltb_spec 0 n) as [_|?]; [|lia].
  destruct (Z.ltb_spec 0 len) as [Hpos|?]; [|cbn; lia].
  cbn. rewrite Z.sub_0_r.
  pose proof (Z.div_mod (len - 1) n ltac:(lia)) as Hdm.
  pose proof (Z.mod_pos_bound (len - 1) n Hn) as Hm.
  pose proof (Z.div_pos (len - 1) n ltac:(lia) Hn).
  nia.
Qed.

Lemma range_len_last len n :
  0 < len → 0 < n →
  len - (Py.range_len 0 len n - 1) * n =
    if len mod n =? 0 then n else len mod n.
Proof.
  intros Hlen Hn. unfold Py.range_len.
  destruct (Z.ltb_spec 0 n) as [_|?]; [|lia].
  destruct (Z.ltb_spec 0 len) as [_|?]; [|lia].
  rewrite Z.sub_0_r.
  pose proof (Z.div_mod len n ltac:(lia)) as Hdm.
  pose proof (Z.mod_pos_bound len n Hn) as Hm.
  destruct (Z.eqb_spec (len mod n) 0) as [H0|H0].
  - rewrite <- (Z.div_unique_pos (len - 1) n (len / n - 1) (n - 1)); lia.
  - rewrite <- (Z.div_unique_pos (len - 1) n (len / n) (len mod n - 1)); lia.
Qed.

Lemma divide_negative lst n : n < 0 → divide lst n = Ok [].
Proof.
  intros Hn. unfold divide, Py.range, Py.range_len.
  destruct (Z.eqb_spec n 0) as [?|_]; [lia|].
  destruct (Z.ltb_spec 0 n) as [?|_]; [lia|].
  destruct (Z.ltb_spec (Z.of_nat (length lst)) 0) as [?|_]; [lia|].
  reflexivity.
Qed.

Lemma divide_zero lst : divide lst 0 = Raise ValueError.
Proof. reflexivity. Qed.

End Divide.

(** C4. For every list and every [n > 0], [divide] yields chunks whose
    concatenation is the list itself (every element once, in order); every
    chunk but the last has length [n]; the last has length [len mod n], or
    [n] when [n] divides the length. *)
Theorem divide_partitions {A} (lst : list A) (n : Z) :
  0 < n →
  ∃ chunks,
    divide lst n = Ok chunks
    ∧ concat chunks = lst
    ∧ (∀ k c, chunks !! k = Some c → (k + 1 < length chunks)%nat →
         Z.of_nat (length c) = n)
    ∧ (∀ c, last chunks = Some c →
         Z.of_nat (length c) =
           if Z.of_nat (length lst) mod n =? 0 then n
           else Z.of_nat (length lst) mod n).
Proof.
  intros Hn. eexists. split; [by apply divide_chunks_at|].
  set (len := Z.of_nat (length lst)).
  set (cnt := Py.range_len 0 len n).
  destruct (range_len_ceil len n ltac:(lia) Hn) as (Hcnt & Hcover & Hlast).
  fold cnt in Hcnt, Hcover, Hlast.
  assert (Hcnt_n : Z.of_nat (Z.to_nat cnt * Z.to_nat n) = cnt * n)
    by (rewrite Nat2Z.inj_mul, !Z2Nat.id; lia).
  split_and!.
  - rewrite concat_chunks_at. apply take_ge. lia.
  - intros k c Hc Hk. rewrite length_chunks_at in Hk.
    apply lookup_chunks_at in Hc as [_ ->].
    rewrite length_take, length_drop.
    assert (Z.of_nat (k * Z.to_nat n) = Z.of_nat k * n)
      by (rewrite Nat2Z.inj_mul, Z2Nat.id; lia).
    assert (Z.of_nat k * n + n ≤ (cnt - 1) * n) by nia.
    lia.
  - intros c Hc. rewrite last_lookup, length_chunks_at in Hc.
    apply lookup_chunks_at in Hc as [Hk ->].
    assert (0 < len) by nia.
    rewrite <- (range_len_last len n) by lia. fold cnt.
    rewrite length_take, length_drop.
    assert (Z.of_nat (pred (Z.to_nat cnt) * Z.to_nat n) = (cnt - 1) * n)
      by (rewrite Nat2Z.inj_mul, Nat2Z.inj_pred, !Z2Nat.id; lia).
    assert (len ≤ (cnt - 1) * n + n) by lia.
    lia.
Qed.

Lemma divide_partitions_witness :
  ∃ chunks,
    divide [1; 2; 3; 4; 5] 2 = Ok chunks
    ∧ concat chunks = [1; 2; 3; 4; 5]
    ∧ (∀ k c, chunks !! k = Some c → (k + 1 < length chunks)%nat →
         Z.of_nat (length c) = 2)
    ∧ (∀ c, last chunks = Some c →
         Z.of_nat (length c) =
           if Z.of_nat (length [1; 2; 3; 4; 5]) mod 2 =? 0 then 2
           else Z.of_nat (length [1; 2; 3; 4; 5]) mod 2).
Proof. apply (divide_partitions [1; 2; 3; 4; 5] 2). lia. Defined.

(** C5. A negative chunk size does not fail: [range(0, len(lst), n)] is
    empty for [n < 0], so the generator ends without a chunk and without an
    exception.  Only [n = 0] raises, from [range]. *)
Theorem divide_negative_size_is_silent :
  divide [1; 2; 3] (-1) = Ok []
  ∧ divide [1; 2; 3] 0 = Raise ValueError.
Proof. split; reflexivity. Qed.

(** * The stock reconciler *)

Section CreateStocks.
Implicit Types (w : watch) (ws : list watch) (ids : list string)
  (stocks out : list stock_entry).

Lemma filter_all {A} (P : A → Prop) `{∀ x, Decision (P x)} (l : list A) :
  (∀ x, x ∈ l → P x) → filter P l = l.
Proof.
  induction l as [|x l IH]; intros HP; [done|].
  rewrite filter_cons_True by (apply HP; left).
  f_equal. apply IH. intros y Hy. apply HP. by right.
Qed.

Lemma filter_ext_elem {A} (P Q : A → Prop)
    `{∀ x, Decision (P x), ∀ x, Decision (Q x)} (l : list A) :
  (∀ x, x ∈ l → P x ↔ Q x) → filter P l = filter Q l.
Proof.
  induction l as [|x l IH]; intros HPQ; [done|].
  rewrite !filter_cons, IH by (intros y Hy; apply HPQ; by right).
  destruct (decide (P x)) as [HP|HP]; destruct (decide (Q x)) as [HQ|HQ];
    try done; apply HPQ in HP || apply HPQ in HQ; by (done || left).
Qed.

Lemma contains_true x ids : Py.contains x ids = true ↔ x ∈ ids.
Proof. unfold Py.contains. by rewrite bool_decide_eq_true. Qed.

Lemma remove_elem c ids : c ∈ ids → ∃ ids1, Py.remove c ids = Ok ids1.
Proof.
  induction ids as [|y ids IH]; intros Hc; [by apply elem_of_nil in Hc|].
  cbn. destruct (decide (y = c)) as [->|Hy]; [eauto|].
  apply elem_of_cons in Hc as [->|Hc]; [done|].
  destruct (IH Hc) as [ids1 ->]. cbn. eauto.
Qed.

Lemma remove_perm c ids ids1 : Py.remove c ids = Ok ids1 → ids ≡ₚ c :: ids1.
Proof.
  revert ids1. induction ids as [|y ids IH]; intros ids1; cbn; [done|].
  destruct (decide (y = c)) as [->|Hy]; [by intros [= ->]|].
  destruct (Py.remove c ids) as [ids2|]; cbn; [|done].
  intros [= <-]. rewrite (IH ids2 eq_refl). apply Permutation_swap.
Qed.

Lemma remove_NoDup c ids ids1 :
  NoDup ids → Py.remove c ids = Ok ids1 → ids1 = filter (λ x, x ≠ c) ids.
Proof.
  intros Hnd. revert ids1.
  induction Hnd as [|y ids Hy Hnd IH]; intros ids1; cbn [Py.remove]; [done|].
  destruct (decide (y = c)) as [->|Hyc].
  - intros [= <-]. rewrite filter_cons_False by (intros Hc; by apply Hc).
    symmetry. apply filter_all. intros x Hx ->. done.
  - destruct (Py.remove c ids) as [ids2|]; cbn [bind]; [|done].
    intros [= <-]. rewrite filter_cons_True by done. f_equal. by apply IH.
Qed.

Lemma create_stocks_missing_app todo stocks :
  create_stocks_missing todo stocks = stocks ++ (zero_stock <$> todo).
Proof.
  revert stocks. induction todo as [|id todo IH]; intros stocks; cbn.
  - by rewrite app_nil_r.
  - rewrite IH, <- app_assoc. done.
Qed.

Lemma offer_ids_zero_stock ids : stock_offer_id <$> (zero_stock <$> ids) = ids.
Proof. induction ids as [|id ids IH]; [done|]. cbn. by f_equal. Qed.


Lemma map_result_Forall2 {A B} (f : A → result B) l ys :
  map_result f l = Ok ys ↔ Forall2 (λ x y, f x = Ok y) l ys.
Proof.
  revert ys. induction l as [|x l IH]; intros ys; cbn.
  - split; [intros [= <-]; constructor|by inversion 1].
  - destruct (f x) as [y|e] eqn:Hx; cbn.
    + destruct (map_result f l) as [ys'|e] eqn:Hl; cbn.
      * split; [intros [= <-]; constructor; [done|by apply IH]|].
        inversion 1 as [|???? Hy Hys]; subst.
        apply IH in Hys. congruence.
      * split; [done|]. inversion 1 as [|???? Hy Hys]; subst.
        by apply IH in Hys.
    + split; [done|]. inversion 1; congruence.
Qed.


(** The matching loop under distinct identifiers: the rows converted are
    the first rows of their code that carry an identifier, and what is left
    of [offer_ids] is the identifiers no row carries. *)
Lemma create_stocks_match_first ws stocks ids :
  NoDup ids →
  create_stocks_match ws stocks ids =
    (m ←! map_result stock_entry_for (matching ids (first_by_code ws));
     Ok (stocks ++ m, missing ws ids)).
Proof.
  unfold matching, missing.
  revert stocks ids. induction ws as [|w ws IH]; intros stocks ids Hnd;
    cbn [create_stocks_match first_by_code].
  - cbn. rewrite app_nil_r. do 2 f_equal. symmetry.
    apply filter_all. intros ? _. apply not_elem_of_nil.
  - fold (code w). destruct (Py.contains (code w) ids) eqn:Hin.
    + apply contains_true in Hin.
      rewrite filter_cons_True by done. cbn [map_result].
      unfold stock_entry_for at 1.
      destruct (stock_of w) as [z|e]; cbn [bind]; [|done].
      destruct (remove_elem _ _ Hin) as [ids1 Hrm]. rewrite Hrm. cbn [bind].
      rewrite (remove_NoDup _ _ _ Hnd Hrm).
      rewrite IH by (by apply NoDup_filter).
      rewrite list_filter_filter.
      rewrite (list_filter_iff (λ w', code w' ∈ filter (λ x, x ≠ code w) ids)
                 (λ w', code w' ∈ ids ∧ code w' ≠ code w))
        by (intros w'; rewrite list_elem_of_filter; tauto).
      rewrite list_filter_filter.
      rewrite (list_filter_iff (λ id, (id ∉ code <$> ws) ∧ id ≠ code w)
                 (λ id, id ∉ code <$> (w :: ws)))
        by (intros id; rewrite fmap_cons, not_elem_of_cons; tauto).
      destruct (map_result _ _) as [m|e]; cbn [bind]; [|done].
      by rewrite <- app_assoc.
    + assert (code w ∉ ids) as Hout
        by (intros Hc; apply contains_true in Hc; congruence).
      rewrite filter_cons_False by done. rewrite IH by done.
      rewrite list_filter_filter.
      rewrite (list_filter_iff (λ w', code w' ∈ ids ∧ code w' ≠ code w)
                 (λ w', code w' ∈ ids))
        by (intros w'; split; [tauto|]; intros ?; split; [done|congruence]).
      rewrite (filter_ext_elem (λ id, id ∉ code <$> (w :: ws))
                 (λ id, id ∉ code <$> ws) ids); [done|].
      intros id Hid. rewrite fmap_cons, not_elem_of_cons.
      split; [tauto|]. intros ?; split; [congruence|done].
Qed.

(** The matching loop moves identifiers from [offer_ids] into [stocks]
    without losing or duplicating one, whatever the lists. *)
Lemma create_stocks_match_perm ws stocks ids stocks' ids' :
  create_stocks_match ws stocks ids = Ok (stocks', ids') →
  (stock_offer_id <$> stocks') ++ ids' ≡ₚ (stock_offer_id <$> stocks) ++ ids.
Proof.
  revert stocks ids. induction ws as [|w ws IH]; intros stocks ids;
    cbn [create_stocks_match].
  - by intros [= -> ->].
  - destruct (Py.contains _ ids); [|by apply IH].
    destruct (stock_of w) as [z|]; cbn [bind]; [|done].
    destruct (Py.remove _ ids) as [ids1|] eqn:Hrm; cbn [bind]; [|done].
    intros Hrest. rewrite (IH _ _ Hrest), (remove_perm _ _ _ Hrm).
    rewrite fmap_app, <- app_assoc. done.
Qed.

Lemma create_stocks_perm ws ids out ids' :
  create_stocks ws ids = Ok (out, ids') → stock_offer_id <$> out ≡ₚ ids.
Proof.
  unfold create_stocks.
  destruct (create_stocks_match ws [] ids) as [[stocks ids1]|] eqn:Hm;
    cbn [bind]; [|done].
  intros [= <- <-]. apply create_stocks_match_perm in Hm.
  by rewrite create_stocks_missing_app, fmap_app, offer_ids_zero_stock.
Qed.

Lemma create_stocks_first ws ids :
  NoDup ids →
  create_stocks ws ids =
    (m ←! map_result stock_entry_for (matching ids (first_by_code ws));
     Ok (m ++ (zero_stock <$> missing ws ids), missing ws ids)).
Proof.
  intros Hnd. unfold create_stocks. rewrite create_stocks_match_first by done.
  destruct (map_result _ _) as [m|e]; cbn [bind]; [|done].
  by rewrite create_stocks_missing_app.
Qed.

Lemma occurrences_cons c x l :
  occurrences c (x :: l) =
    ((if decide (x = c) then 1 else 0) + occurrences c l)%nat.
Proof.
  unfold occurrences. rewrite filter_cons. by destruct (decide (x = c)).
Qed.

Lemma occurrences_perm c l k : l ≡ₚ k → occurrences c l = occurrences c k.
Proof. unfold occurrences. by intros ->. Qed.

Lemma occurrences_pos c l : (0 < occurrences c l)%nat ↔ c ∈ l.
Proof.
  induction l as [|x l IH]; [cbn; rewrite elem_of_nil; lia|].
  rewrite occurrences_cons, elem_of_cons.
  destruct (decide (x = c)) as [->|Hx]; [split; [by left|lia]|].
  rewrite <- IH. split; [intros ?; right; lia|].
  intros [->|?]; [done|lia].
Qed.

(** What is left of an identifier after the matching loop: each row that
    carries it takes one occurrence away while there is one. *)
Lemma create_stocks_match_occurrences ws stocks ids stocks' ids' c :
  create_stocks_match ws stocks ids = Ok (stocks', ids') →
  occurrences c ids' = (occurrences c ids - occurrences c (code <$> ws))%nat.
Proof.
  revert stocks ids. induction ws as [|w ws IH]; intros stocks ids;
    cbn [create_stocks_match].
  - intros [= -> ->]. cbn. lia.
  - fold (code w). rewrite fmap_cons, occurrences_cons.
    destruct (Py.contains (code w) ids) eqn:Hin.
    + destruct (stock_of w) as [z|]; cbn [bind]; [|done].
      destruct (Py.remove _ ids) as [ids1|] eqn:Hrm; cbn [bind]; [|done].
      intros Hrest. rewrite (IH _ _ Hrest).
      rewrite (occurrences_perm c _ _ (remove_perm _ _ _ Hrm)), occurrences_cons.
      destruct (decide (code w = c)); lia.
    + intros Hrest. rewrite (IH _ _ Hrest).
      destruct (decide (code w = c)) as [<-|]; [|lia].
      assert (¬ (0 < occurrences (code w) ids)%nat); [|lia].
      rewrite occurrences_pos, <- contains_true. congruence.
Qed.

Lemma create_stocks_match_app pre post stocks ids :
  create_stocks_match (pre ++ post) stocks ids =
    ('(stocks1, ids1) ←! create_stocks_match pre stocks ids;
     create_stocks_match post stocks1 ids1).
Proof.
  revert stocks ids. induction pre as [|w pre IH]; intros stocks ids; [done|].
  cbn [app create_stocks_match].
  destruct (Py.contains _ ids); [|by apply IH].
  destruct (stock_of w) as [z|]; cbn [bind]; [|done].
  destruct (Py.remove _ ids) as [ids1|]; cbn [bind]; [|done].
  apply IH.
Qed.

Lemma int_of_str_raises q e : Py.int_of_str q = Raise e → e = ValueError.
Proof.
  unfold Py.int_of_str.
  destruct (Py.ascii_form q) as [buffer|]; [|by intros [= <-]].
  destruct (Py.sign _) as [neg ds].
  destruct (Py.digits ds 0 false); [|by intros [= <-]].
  by destruct (_ <? _)%nat; [intros [= <-]|].
Qed.









Lemma stock_of_raises w e :
  quantity w ≠ PyNone → stock_of w = Raise e → e = ValueError.
Proof.
  unfold stock_of. fold (quantity w). intros Hq.
  repeat case_match; try done.
  destruct (quantity w) as [|b|z|q]; cbn; try done.
  apply int_of_str_raises.
Qed.

Lemma create_stocks_match_raises ws stocks ids e :
  (∀ w, w ∈ ws → quantity w ≠ PyNone) →
  create_stocks_match ws stocks ids = Raise e → e = ValueError.
Proof.
  revert stocks ids. induction ws as [|w ws IH]; intros stocks ids Hq;
    cbn [create_stocks_match]; [done|].
  assert (∀ w', w' ∈ ws → quantity w' ≠ PyNone) as Hq'
    by (intros w' Hw'; apply Hq; by right).
  fold (code w).
  destruct (Py.contains (code w) ids) eqn:Hin; [|by apply IH].
  destruct (stock_of w) as [z|e'] eqn:Hs; cbn [bind].
  - apply contains_true, remove_elem in Hin as [ids1 ->]. cbn [bind].
    by apply IH.
  - intros [= <-]. eapply stock_of_raises; [|done]. apply Hq. by left.
Qed.


End CreateStocks.

(** The docstring of [create_stocks], and the two sentinels. *)
Example create_stocks_docstring :
  create_stocks [row (PyStr "CASIO-123") (PyStr "5") PyNone]
    ["CASIO-123"; "CASIO-456"]
  = Ok ([StockEntry "CASIO-123" 5; StockEntry "CASIO-456" 0], ["CASIO-456"]).
Proof. by vm_compute. Qed.

Example create_stocks_sentinels :
  create_stocks [row (PyStr "A") (PyStr ">10") PyNone;
                 row (PyStr "B") (PyStr "1") PyNone;
                 row (PyInt 77) (PyInt 1) PyNone] ["77"; "B"; "A"]
  = Ok ([StockEntry "A" 100; StockEntry "B" 0; StockEntry "77" 0], []).
Proof. by vm_compute. Qed.




(** C3. A quantity that is a digit string is passed through [int] as it is:
    ["500"] gives the stock 500, outside the range 0..100 that the
    docstring of [create_stocks] gives for the field. *)
Theorem create_stocks_stock_above_100 :
  digit_string "500"
  ∧ create_stocks [row (PyStr "A") (PyStr "500") PyNone] ["A"]
      = Ok ([StockEntry "A" 500], [])
  ∧ ¬ (0 ≤ 500 ≤ 100).
Proof.
  split_and!; [|by vm_compute|lia].
  split; [done|]. apply (bool_decide_unpack _). by vm_compute.
Qed.

(** C8, for a row that is reached while its code is still in the working
    list, that is, when the identifier list holds the code more often than
    the rows before it do (the first row of a code that is an identifier
    always is).  If its quantity is a string other than [">10"] and ["1"]
    that [int] does not accept, [create_stocks] ends in an exception, and
    no handler sits between the conversion and the caller: the
    [ValueError] of this row when the rows before it convert, and
    otherwise the exception that the rows before it raise on their own. *)
Theorem create_stocks_parse_error (pre : list watch) (w : watch)
    (post : list watch) (ids : list string) (q : string) :
  (occurrences (code w) (code <$> pre) < occurrences (code w) ids)%nat →
  quantity w = PyStr q → q ≠ ">10" → q ≠ "1" → ¬ numeric q →
  create_stocks (pre ++ w :: post) ids
    = Raise (match create_stocks pre ids with
             | Raise e => e
             | Ok _ => ValueError
             end).
Proof.
  intros Hocc Hq Hmany Hone Hnum. unfold create_stocks.
  rewrite create_stocks_match_app.
  destruct (create_stocks_match pre [] ids) as [[stocks1 ids1]|e] eqn:Hrun;
    cbn [bind]; [|done].
  cbn [create_stocks_match]. fold (code w).
  assert (Py.contains (code w) ids1 = true) as ->.
  { apply contains_true, occurrences_pos.
    rewrite (create_stocks_match_occurrences _ _ _ _ _ _ Hrun). lia. }
  assert (stock_of w = Raise ValueError) as ->; [|done].
  unfold stock_of. fold (quantity w). rewrite Hq. cbn [Py.str Py.int].
  destruct (String.eqb_spec q ">10"); [done|].
  destruct (String.eqb_spec q "1"); [done|].
  destruct (Py.int_of_str q) as [z|e] eqn:Hz; [destruct Hnum; by exists z|].
  by rewrite (int_of_str_raises _ _ Hz).
Qed.

Lemma create_stocks_parse_error_witness :
  create_stocks
    ([row (PyStr "B") (PyStr ">10") PyNone; <["Код" := PyStr "Z"]> ∅]
       ++ row (PyStr "A") (PyStr "n/a") PyNone
       :: [row (PyStr "C") (PyStr "3") PyNone]) ["A"; "B"]
    = Raise ValueError.
Proof.
  rewrite (create_stocks_parse_error _ _ _ _ "n/a").
  - by vm_compute.
  - vm_compute. lia.
  - by vm_compute.
  - done.
  - done.
  - intros [z Hz]. by vm_compute in Hz.
Defined.

(** C8 as stated fails in two ways.  A row whose code was used up by an
    earlier row is skipped: below, the second row carries the identifier
    ["A"] and a quantity that is no number, yet [create_stocks] returns.
    And an earlier matched row without quantity cell ends the call first,
    in [TypeError]. *)
Lemma create_stocks_no_parse_error_counterexample :
  (code (row (PyStr "A") (PyStr "n/a") PyNone) ∈ ["A"]
   ∧ quantity (row (PyStr "A") (PyStr "n/a") PyNone) = PyStr "n/a"
   ∧ ¬ numeric "n/a"
   ∧ create_stocks [row (PyStr "A") (PyStr "5") PyNone;
                    row (PyStr "A") (PyStr "n/a") PyNone] ["A"]
       = Ok ([StockEntry "A" 5], []))
  ∧ (code (row (PyStr "A") (PyStr "n/a") PyNone) ∈ ["A"; "B"]
     ∧ create_stocks [<["Код" := PyStr "B"]> ∅;
                      row (PyStr "A") (PyStr "n/a") PyNone] ["A"; "B"]
         = Raise TypeError).
Proof.
  split; split_and!; try (by vm_compute); try (by vm_compute; left).
  intros [z Hz]. by vm_compute in Hz.
Qed.

(** * The price reconciler *)

Section CreatePrices.
Implicit Types (w : watch) (ws : list watch) (ids : list string)
  (prices out : list price_entry).

Lemma create_prices_loop_matching ws prices ids :
  create_prices_loop ws prices ids =
    (out ←! map_result price_entry_for (matching ids ws);
     Ok (prices ++ out, ids)).
Proof.
  unfold matching. revert prices.
  induction ws as [|w ws IH]; intros prices; cbn [create_prices_loop].
  - cbn. by rewrite app_nil_r.
  - fold (code w). destruct (Py.contains (code w) ids) eqn:Hin.
    + apply contains_true in Hin. rewrite filter_cons_True by done.
      cbn [map_result]. unfold price_entry_for at 1.
      destruct (price_conversion _) as [p|]; cbn [bind]; [|done].
      rewrite IH. destruct (map_result _ _) as [out|]; cbn [bind]; [|done].
      by rewrite <- app_assoc.
    + rewrite filter_cons_False; [apply IH|].
      intros Hc. apply contains_true in Hc. congruence.
Qed.

Lemma price_entry_for_inv w e :
  price_entry_for w = Ok e ↔
  ∃ p, price_conversion (Py.get w "Цена") = Ok p
       ∧ e = PriceEntry "UNKNOWN" "RUB" (code w) "0" p.
Proof.
  unfold price_entry_for.
  destruct (price_conversion _) as [p|]; cbn [bind].
  - split; [intros [= <-]; eauto|]. by intros (p' & [= <-] & ->).
  - split; [done|]. by intros (p' & ? & _).
Qed.


Lemma occurrences_matching c ws ids :
  c ∈ ids →
  occurrences c (code <$> matching ids ws) = occurrences c (code <$> ws).
Proof.
  intros Hc. unfold matching. induction ws as [|w ws IH]; [done|].
  rewrite filter_cons, fmap_cons, occurrences_cons.
  destruct (decide (code w ∈ ids)) as [Hw|Hw].
  - by rewrite fmap_cons, occurrences_cons, IH.
  - rewrite IH. destruct (decide (code w = c)) as [<-|]; done.
Qed.

Lemma price_offer_ids ws out :
  Forall2 (λ w e, price_entry_for w = Ok e) ws out →
  price_offer_id <$> out = code <$> ws.
Proof.
  induction 1 as [|w e ws out He _ IH]; [done|].
  apply price_entry_for_inv in He as (p & _ & ->). cbn. by f_equal.
Qed.

End CreatePrices.



Section FirstRecord.
Implicit Types (w : watch) (ws : list watch) (ids : list string)
  (stocks out : list stock_entry).

(** Rows that cannot match the code [c] leave the entries of [c] alone. *)
Lemma create_stocks_match_other_codes ws stocks ids stocks' ids' c :
  create_stocks_match ws stocks ids = Ok (stocks', ids') →
  c ∉ ids ∨ (∀ w, w ∈ ws → code w ≠ c) →
  filter (λ entry, stock_offer_id entry = c) stocks'
    = filter (λ entry, stock_offer_id entry = c) stocks.
Proof.
  revert stocks ids. induction ws as [|w ws IH]; intros stocks ids;
    cbn [create_stocks_match].
  - by intros [= -> ->].
  - fold (code w). destruct (Py.contains (code w) ids) eqn:Hin.
    + apply contains_true in Hin.
      destruct (stock_of w) as [z|]; cbn [bind]; [|done].
      destruct (Py.remove _ ids) as [ids1|] eqn:Hrm; cbn [bind]; [|done].
      intros Hrest Hc. rewrite (IH _ _ Hrest).
      * rewrite filter_app, filter_cons_False, filter_nil, app_nil_r; [done|].
        cbn. destruct Hc as [Hc|Hc]; [congruence|]. apply Hc. by left.
      * destruct Hc as [Hc|Hc]; [left|right; intros w' Hw'; apply Hc; by right].
        intros Hc1. apply Hc. rewrite (remove_perm _ _ _ Hrm). by right.
    + intros Hrest Hc. apply (IH _ _ Hrest).
      destruct Hc as [Hc|Hc]; [by left|right; intros w' Hw'; apply Hc; by right].
Qed.

Lemma zero_stock_other_codes c ids :
  c ∉ ids →
  filter (λ entry, stock_offer_id entry = c) (zero_stock <$> ids) = [].
Proof.
  induction ids as [|id ids IH]; [done|].
  intros [Hid Hids]%not_elem_of_cons. rewrite fmap_cons.
  rewrite filter_cons_False by (cbn; congruence). by apply IH.
Qed.

(** With the code once in the identifier list, the one entry of the code is
    made from the first row that carries it. *)
Lemma create_stocks_first_record pre w post ids out ids' :
  (∀ w', w' ∈ pre → code w' ≠ code w) →
  occurrences (code w) ids = 1%nat →
  create_stocks (pre ++ w :: post) ids = Ok (out, ids') →
  ∃ z, stock_of w = Ok z
       ∧ filter (λ entry, stock_offer_id entry = code w) out
         = [StockEntry (code w) z].
Proof.
  intros Hpre Hone. unfold create_stocks. rewrite create_stocks_match_app.
  destruct (create_stocks_match pre [] ids) as [[stocks1 ids1]|] eqn:Hrun1;
    cbn [bind]; [|done].
  cbn [create_stocks_match]. fold (code w).
  pose proof (create_stocks_match_occurrences _ _ _ _ _ (code w) Hrun1) as Hocc1.
  assert (occurrences (code w) (code <$> pre) = 0%nat) as Hnone.
  { destruct (occurrences (code w) (code <$> pre)) eqn:Hn; [done|].
    assert (code w ∈ code <$> pre) as Hin by (apply occurrences_pos; lia).
    apply list_elem_of_fmap in Hin as (w' & Hw' & Hin). by destruct (Hpre w'). }
  assert (Py.contains (code w) ids1 = true) as ->
    by (apply contains_true, occurrences_pos; lia).
  destruct (stock_of w) as [z|]; cbn [bind]; [|done].
  destruct (Py.remove _ ids1) as [ids2|] eqn:Hrm; cbn [bind]; [|done].
  destruct (create_stocks_match post _ ids2) as [[stocks3 ids3]|] eqn:Hrun3;
    cbn [bind]; [|done].
  intros [= <- <-]. exists z. split; [done|].
  assert (occurrences (code w) ids2 = 0%nat) as Hgone.
  { pose proof (occurrences_perm (code w) _ _ (remove_perm _ _ _ Hrm)) as Hp.
    rewrite occurrences_cons, decide_True in Hp by done. lia. }
  assert (code w ∉ ids2) as Hout by (rewrite <- occurrences_pos; lia).
  assert (code w ∉ ids3) as Hout3.
  { rewrite <- occurrences_pos.
    rewrite (create_stocks_match_occurrences _ _ _ _ _ (code w) Hrun3). lia. }
  rewrite create_stocks_missing_app, filter_app.
  rewrite (create_stocks_match_other_codes _ _ _ _ _ _ Hrun3) by (by left).
  rewrite filter_app.
  rewrite (create_stocks_match_other_codes _ _ _ _ _ _ Hrun1) by (by right).
  rewrite filter_nil, filter_cons_True, filter_nil by done. cbn.
  by rewrite zero_stock_other_codes.
Qed.

End FirstRecord.

(** C10, with the part on [create_stocks] for a code that the identifier
    list holds once.  For a code that is an identifier, the output of
    [create_prices] holds as many entries with it as there are rows that
    carry it, so two such rows give two entries with one [offer_id].  The
    output of [create_stocks] holds an identifier as often as the
    identifier list does, however many rows carry it; when the list holds
    the code once, its one entry is made from the first row with that code
    and the later rows are dropped: on the rows below it keeps the first
    one only, where [create_prices] keeps both. *)
Theorem create_prices_keeps_repeated_codes :
  (∀ ws ids c out ids', c ∈ ids → create_prices ws ids = Ok (out, ids') →
     occurrences c (price_offer_id <$> out) = occurrences c (code <$> ws))
  ∧ (∀ ws ids c out ids', create_stocks ws ids = Ok (out, ids') →
       occurrences c (stock_offer_id <$> out) = occurrences c ids)
  ∧ (∀ pre w post ids out ids',
       (∀ w', w' ∈ pre → code w' ≠ code w) →
       occurrences (code w) ids = 1%nat →
       create_stocks (pre ++ w :: post) ids = Ok (out, ids') →
       ∃ z, stock_of w = Ok z
            ∧ filter (λ entry, stock_offer_id entry = code w) out
              = [StockEntry (code w) z])
  ∧ create_prices [row (PyStr "A") (PyStr "5") (PyStr "100.00 руб.");
                   row (PyStr "A") (PyStr "7") (PyStr "120.00 руб.")] ["A"]
      = Ok ([PriceEntry "UNKNOWN" "RUB" "A" "0" "100";
             PriceEntry "UNKNOWN" "RUB" "A" "0" "120"], ["A"])
  ∧ create_stocks [row (PyStr "A") (PyStr "5") (PyStr "100.00 руб.");
                   row (PyStr "A") (PyStr "7") (PyStr "120.00 руб.")] ["A"]
      = Ok ([StockEntry "A" 5], []).
Proof.
  split_and!; [| | |by vm_compute..].
  - intros ws ids c out ids' Hc. unfold create_prices.
    rewrite create_prices_loop_matching.
    destruct (map_result _ _) as [out'|] eqn:Hout; cbn [bind]; [|done].
    intros [= <- <-]. apply map_result_Forall2, price_offer_ids in Hout.
    rewrite Hout. by apply occurrences_matching.
  - intros ws ids c out ids' Hrun. apply occurrences_perm.
    by eapply create_stocks_perm.
  - apply create_stocks_first_record.
Qed.

Lemma create_prices_keeps_repeated_codes_witness :
  occurrences "A"
    (price_offer_id <$> [PriceEntry "UNKNOWN" "RUB" "A" "0" "100";
                         PriceEntry "UNKNOWN" "RUB" "A" "0" "120"])
  = occurrences "A"
      (code <$> [row (PyStr "A") (PyStr "5") (PyStr "100.00 руб.");
                 row (PyStr "A") (PyStr "7") (PyStr "120.00 руб.")])
  ∧ ∃ z, stock_of (row (PyStr "A") (PyStr "5") PyNone) = Ok z
         ∧ filter (λ entry, stock_offer_id entry
                            = code (row (PyStr "A") (PyStr "5") PyNone))
             [StockEntry "B" 0; StockEntry "A" 5; StockEntry "C" 0]
           = [StockEntry (code (row (PyStr "A") (PyStr "5") PyNone)) z].
Proof.
  destruct create_prices_keeps_repeated_codes as (Hprices & _ & Hfirst & _ & _).
  split.
  - apply (Hprices _ ["A"] "A" _ ["A"]); [by left|by vm_compute].
  - apply (Hfirst [row (PyStr "B") (PyStr "1") PyNone]
             (row (PyStr "A") (PyStr "5") PyNone)
             [row (PyStr "A") (PyStr "7") PyNone]
             ["C"; "A"; "B"] _ ["C"]).
    + intros w' Hw'. apply list_elem_of_singleton in Hw' as ->. by vm_compute.
    + by vm_compute.
    + by vm_compute.
Defined.

(** C10 as stated fails on an identifier list that holds the code twice:
    of three rows with the code ["A"], [create_stocks] keeps the first two,
    not the first one only. *)
Lemma create_stocks_second_record_counterexample :
  create_stocks [row (PyStr "A") (PyStr "5") PyNone;
                 row (PyStr "A") (PyStr "7") PyNone;
                 row (PyStr "A") (PyStr "9") PyNone] ["A"; "A"]
    = Ok ([StockEntry "A" 5; StockEntry "A" 7], [])
  ∧ create_prices [row (PyStr "A") PyNone (PyStr "10.00");
                   row (PyStr "A") PyNone (PyStr "20.00");
                   row (PyStr "A") PyNone (PyStr "30.00")] ["A"; "A"]
    = Ok ([PriceEntry "UNKNOWN" "RUB" "A" "0" "10";
           PriceEntry "UNKNOWN" "RUB" "A" "0" "20";
           PriceEntry "UNKNOWN" "RUB" "A" "0" "30"], ["A"; "A"]).
Proof. split; by vm_compute. Qed.

(** * The orchestration *)

Section Main.
Implicit Types (ws : list watch) (fetched : list string).

Lemma filter_none {A} (P : A → Prop) `{∀ x, Decision (P x)} (l : list A) :
  (∀ x, x ∈ l → ¬ P x) → filter P l = [].
Proof.
  induction l as [|x l IH]; intros HP; [done|].
  rewrite filter_cons_False by (apply HP; left).
  apply IH. intros y Hy. apply HP. by right.
Qed.

(** No row carries an identifier that [create_stocks] left in the list. *)
Lemma matching_missing ws ids : matching (missing ws ids) ws = [].
Proof.
  unfold matching, missing. apply filter_none. intros w Hw Hc.
  apply list_elem_of_filter in Hc as [Hc _]. apply Hc.
  by apply list_elem_of_fmap_2.
Qed.

(** With distinct identifiers, [main] never calls [update_price]: the
    identifiers that [create_prices] receives are those no row carries. *)
Lemma main_sends_no_price fetched ws ps :
  NoDup fetched → UpdatePrice ps ∉ (main fetched ws).1.
Proof.
  intros Hnd. unfold main. rewrite create_stocks_first by done.
  destruct (map_result _ _) as [m|]; cbn [bind]; [|apply not_elem_of_nil].
  rewrite divide_chunks_at by lia.
  unfold create_prices. rewrite create_prices_loop_matching, matching_missing.
  cbn. rewrite app_nil_r. intros Hin.
  by apply list_elem_of_fmap in Hin as (chunk & [=] & _).
Qed.

End Main.

(** C1. In [main] the list handed to [create_prices] is the object that
    [create_stocks] has just emptied of every matched identifier.  For one
    row ["A"] and the fetched identifiers [["A"]], [main] sends the stock
    update and no price update at all, while [upload_prices], which fetches
    its own list, sends the price entry of ["A"]. *)
Theorem main_prices_after_stocks :
  main ["A"] [row (PyStr "A") (PyStr "5") (PyStr "100.00 руб.")]
    = ([UpdateStocks [StockEntry "A" 5]], None)
  ∧ upload_prices ["A"] [row (PyStr "A") (PyStr "5") (PyStr "100.00 руб.")]
    = Ok ([UpdatePrice [PriceEntry "UNKNOWN" "RUB" "A" "0" "100"]],
          [PriceEntry "UNKNOWN" "RUB" "A" "0" "100"]).
Proof. split; by vm_compute. Qed.

(** * Further properties of the chunking generator *)

Section DivideMore.
Context {A : Type}.
Implicit Types (lst : list A) (n : Z).

Lemma range_len_count len n :
  0 ≤ len → 0 < n → Py.range_len 0 len n = (len + n - 1) / n.
Proof.
  intros Hlen Hn. unfold Py.range_len.
  destruct (Z.ltb_spec 0 n) as [_|?]; [|lia].
  destruct (Z.ltb_spec 0 len) as [Hpos|Hzero].
  - rewrite Z.sub_0_r.
    replace (len + n - 1) with (len - 1 + 1 * n) by lia.
    rewrite Z.div_add by lia. lia.
  - replace len with 0 by lia. symmetry. apply Z.div_small. lia.
Qed.

Lemma chunks_at_sizes lst n :
  0 < n →
  Forall (λ c, 1 ≤ Z.of_nat (length c) ≤ n)
    (chunks_at (Z.to_nat n) lst
       (Z.to_nat (Py.range_len 0 (Z.of_nat (length lst)) n))).
Proof.
  intros Hn. set (len := Z.of_nat (length lst)).
  set (cnt := Py.range_len 0 len n).
  destruct (range_len_ceil len n ltac:(lia) Hn) as (Hcnt & _ & Hlast).
  fold cnt in Hcnt, Hlast.
  apply Forall_lookup. intros k c Hc.
  apply lookup_chunks_at in Hc as [Hk ->].
  rewrite length_take, length_drop.
  assert (Z.of_nat (k * Z.to_nat n) = Z.of_nat k * n)
    by (rewrite Nat2Z.inj_mul, Z2Nat.id; lia).
  assert (Z.of_nat k * n ≤ (cnt - 1) * n) by nia.
  lia.
Qed.

End DivideMore.

(** For a positive size, [divide] never yields an empty chunk nor one with
    more than [n] elements, and it yields the ceiling of [len / n] chunks. *)
Theorem divide_chunk_sizes {A} (lst : list A) (n : Z) :
  0 < n →
  ∃ chunks,
    divide lst n = Ok chunks
    ∧ Forall (λ c, 1 ≤ Z.of_nat (length c) ≤ n) chunks
    ∧ Z.of_nat (length chunks) = (Z.of_nat (length lst) + n - 1) / n.
Proof.
  intros Hn. eexists. split; [by apply divide_chunks_at|].
  split; [by apply chunks_at_sizes|].
  rewrite length_chunks_at, <- range_len_count by lia.
  apply Z2Nat.id. by apply range_len_ceil; lia.
Qed.

Lemma divide_chunk_sizes_witness :
  ∃ chunks,
    divide [1; 2; 3; 4; 5; 6; 7] 3 = Ok chunks
    ∧ Forall (λ c, 1 ≤ Z.of_nat (length c) ≤ 3) chunks
    ∧ Z.of_nat (length chunks)
      = (Z.of_nat (length [1; 2; 3; 4; 5; 6; 7]) + 3 - 1) / 3.
Proof. apply (divide_chunk_sizes [1; 2; 3; 4; 5; 6; 7] 3). lia. Defined.

(** For a size that is not positive, [divide] depends on the sign only: a
    negative size gives no chunk and no exception, whatever the list, and
    zero raises [ValueError], even for the empty list. *)
Theorem divide_non_positive_size {A} (lst : list A) (n : Z) :
  n ≤ 0 →
  divide lst n = if n =? 0 then Raise ValueError else Ok [].
Proof.
  intros Hn. destruct (Z.eqb_spec n 0) as [->|Hne].
  - apply divide_zero.
  - apply divide_negative. lia.
Qed.

Lemma divide_non_positive_size_witness :
  divide ["a"; "b"] (-100) = Ok [] ∧ divide (@nil string) 0 = Raise ValueError.
Proof.
  split.
  - apply (divide_non_positive_size ["a"; "b"] (-100)). lia.
  - apply (divide_non_positive_size (@nil string) 0). lia.
Defined.

(** * Further properties of the price normaliser *)

Section PriceConversionMore.

Lemma append_empty s : s +:+ "" = s.
Proof.
  induction s as [|c s IH]; [done|].
  change (String c s +:+ "") with (String c (s +:+ "")). by rewrite IH.
Qed.

Lemma length_append p rest :
  String.length (p +:+ rest) = (String.length p + String.length rest)%nat.
Proof.
  induction p as [|c p IH]; [done|].
  change (String c p +:+ rest) with (String c (p +:+ rest)).
  cbn [String.length]. by rewrite IH.
Qed.

Lemma keep_digits_cons c s :
  keep_digits (String c s) =
    if decide (48 ≤ N_of_ascii c ≤ 57)%N then String c (keep_digits s)
    else keep_digits s.
Proof.
  unfold keep_digits. cbn [list_ascii_of_string]. rewrite filter_cons.
  by destruct (decide _).
Qed.

Lemma keep_digits_digits_only s : digits_only (keep_digits s).
Proof.
  unfold digits_only. induction s as [|c s IH]; [constructor|].
  rewrite keep_digits_cons. destruct (decide _); [|done].
  cbn [list_ascii_of_string]. by constructor.
Qed.

Lemma keep_digits_length s :
  (String.length (keep_digits s) ≤ String.length s)%nat.
Proof.
  induction s as [|c s IH]; [done|].
  rewrite keep_digits_cons. destruct (decide _); cbn; lia.
Qed.

Lemma keep_digits_fixed s : digits_only s → keep_digits s = s.
Proof.
  unfold digits_only. induction s as [|c s IH]; [done|].
  cbn [list_ascii_of_string]. intros [Hc Hs]%Forall_cons.
  rewrite keep_digits_cons, decide_True by done. by rewrite IH.
Qed.

Lemma digits_only_no_dot s : digits_only s → no_dot s.
Proof.
  unfold digits_only, no_dot. intros Hs Hdot.
  rewrite Forall_forall in Hs. apply Hs in Hdot. cbn in Hdot. lia.
Qed.

Lemma price_conversion_digits_only s :
  digits_only s → price_conversion (PyStr s) = Ok s.
Proof.
  intros Hs. rewrite <- (append_empty s) at 1.
  rewrite price_conversion_cut; [|by apply digits_only_no_dot|by left].
  by rewrite keep_digits_fixed.
Qed.

Lemma price_conversion_ok_digits s r :
  price_conversion (PyStr s) = Ok r → digits_only r.
Proof.
  destruct (cut_at_first_dot s) as (p & rest & -> & Hp & Hrest).
  rewrite price_conversion_cut by done. intros [= <-].
  apply keep_digits_digits_only.
Qed.

Lemma list_ascii_append p rest :
  list_ascii_of_string (p +:+ rest)
  = list_ascii_of_string p ++ list_ascii_of_string rest.
Proof.
  induction p as [|c p IH]; [done|].
  change (String c p +:+ rest) with (String c (p +:+ rest)).
  cbn [list_ascii_of_string]. by rewrite IH.
Qed.

Lemma filter_sublist {A} (P : A → Prop) `{∀ x, Decision (P x)} (l k : list A) :
  l `sublist_of` k → filter P l `sublist_of` filter P k.
Proof.
  induction 1 as [|x l k _ IH|x l k _ IH]; [done|..].
  - rewrite !filter_cons. destruct (decide (P x)); [by apply sublist_skip|done].
  - rewrite filter_cons. destruct (decide (P x)); [by apply sublist_cons|done].
Qed.

(** The result is made of characters of the input, in their order. *)
Lemma price_conversion_sublist s r :
  price_conversion (PyStr s) = Ok r →
  list_ascii_of_string r `sublist_of` list_ascii_of_string s.
Proof.
  destruct (cut_at_first_dot s) as (p & rest & -> & Hp & Hrest).
  rewrite price_conversion_cut by done. intros [= <-].
  unfold keep_digits. rewrite list_ascii_of_string_of_list_ascii.
  rewrite list_ascii_append. apply sublist_inserts_r, sublist_filter.
Qed.

End PriceConversionMore.

(** Whatever string [price_conversion] is given, what it returns holds
    digits only, which are characters of the input in the order of the
    input, so that it has no more characters than the input, and it is left
    as it is when normalised again. *)
Theorem price_conversion_normal_form (s r : string) :
  price_conversion (PyStr s) = Ok r →
  digits_only r
  ∧ list_ascii_of_string r `sublist_of` list_ascii_of_string s
  ∧ (char_count r ≤ char_count s)%nat
  ∧ price_conversion (PyStr r) = Ok r.
Proof.
  intros Hr. pose proof (price_conversion_sublist s r Hr) as Hsub.
  split_and!.
  - by eapply price_conversion_ok_digits.
  - done.
  - unfold char_count. by apply sublist_length, filter_sublist.
  - eapply price_conversion_digits_only, price_conversion_ok_digits. done.
Qed.

Lemma price_conversion_normal_form_witness :
  digits_only "5990"
  ∧ list_ascii_of_string "5990" `sublist_of` list_ascii_of_string "5'990.00 руб."
  ∧ (char_count "5990" ≤ char_count "5'990.00 руб.")%nat
  ∧ price_conversion (PyStr "5990") = Ok "5990".
Proof. by apply (price_conversion_normal_form "5'990.00 руб." "5990"). Defined.

(** * Further properties of the price reconciler *)

Section CreatePricesMore.
Implicit Types (w : watch) (ws : list watch) (ids : list string).




End CreatePricesMore.



(** Every entry that [create_prices] returns carries an identifier of the
    list and a price made of digits only, and there are no more entries
    than rows. *)
Theorem create_prices_entries (ws : list watch) (ids : list string)
    (out : list price_entry) (ids' : list string) :
  create_prices ws ids = Ok (out, ids') →
  Forall (λ entry, price_offer_id entry ∈ ids ∧ digits_only (price entry)) out
  ∧ (length out ≤ length ws)%nat.
Proof.
  unfold create_prices. rewrite create_prices_loop_matching.
  destruct (map_result _ _) as [out'|] eqn:Hout; cbn [bind]; [|done].
  intros [= <- <-]. apply map_result_Forall2 in Hout. split.
  - apply Forall_lookup. intros i entry Hi.
    destruct (Forall2_lookup_r _ _ _ _ _ Hout Hi) as (w & Hw & He).
    apply price_entry_for_inv in He as (p & Hp & ->). cbn.
    apply list_elem_of_lookup_2, list_elem_of_filter in Hw as [Hc _].
    split; [done|].
    destruct (Py.get w "Цена") as [|b|z|s]; try done.
    by apply (price_conversion_ok_digits s p).
  - rewrite <- (Forall2_length _ _ _ Hout). apply length_filter.
Qed.

Lemma create_prices_entries_witness :
  Forall (λ entry, price_offer_id entry ∈ ["A"; "B"]
                   ∧ digits_only (price entry))
    [PriceEntry "UNKNOWN" "RUB" "B" "0" ""]
  ∧ (length [PriceEntry "UNKNOWN" "RUB" "B" "0" ""]
     ≤ length [row (PyStr "B") (PyStr "2") (PyStr "по запросу");
               row (PyStr "C") (PyStr "2") (PyStr "15.00")])%nat.
Proof.
  apply (create_prices_entries
           [row (PyStr "B") (PyStr "2") (PyStr "по запросу");
            row (PyStr "C") (PyStr "2") (PyStr "15.00")]
           ["A"; "B"] _ ["A"; "B"]).
  by vm_compute.
Defined.

(** * Further properties of the stock reconciler *)

Section CreateStocksMore.
Implicit Types (w : watch) (ws : list watch) (ids : list string)
  (stocks out : list stock_entry).

Lemma remove_sublist c ids ids1 :
  Py.remove c ids = Ok ids1 → ids1 `sublist_of` ids.
Proof.
  revert ids1. induction ids as [|y ids IH]; intros ids1; cbn [Py.remove]; [done|].
  destruct (decide (y = c)) as [->|Hy]; [intros [= ->]; by apply sublist_cons|].
  destruct (Py.remove c ids) as [ids2|]; cbn [bind]; [|done].
  intros [= <-]. apply sublist_skip. by apply IH.
Qed.

Lemma create_stocks_match_sublist ws stocks ids stocks' ids' :
  create_stocks_match ws stocks ids = Ok (stocks', ids') →
  ids' `sublist_of` ids.
Proof.
  revert stocks ids. induction ws as [|w ws IH]; intros stocks ids;
    cbn [create_stocks_match].
  - by intros [= _ ->].
  - destruct (Py.contains _ ids); [|by apply IH].
    destruct (stock_of w) as [z|]; cbn [bind]; [|done].
    destruct (Py.remove _ ids) as [ids1|] eqn:Hrm; cbn [bind]; [|done].
    intros Hrest. etrans; [by eapply IH|by eapply remove_sublist].
Qed.




(** Where the entries of the matching loop come from. *)
Lemma create_stocks_match_from_rows ws stocks ids stocks' ids' :
  create_stocks_match ws stocks ids = Ok (stocks', ids') →
  ∃ m, stocks' = stocks ++ m
       ∧ Forall (λ entry, ∃ w, w ∈ ws ∧ code w ∈ ids
                           ∧ stock_offer_id entry = code w
                           ∧ stock_of w = Ok (stock entry)) m.
Proof.
  revert stocks ids. induction ws as [|w ws IH]; intros stocks ids;
    cbn [create_stocks_match].
  - intros [= -> ->]. exists []. by rewrite app_nil_r.
  - fold (code w). destruct (Py.contains (code w) ids) eqn:Hin.
    + apply contains_true in Hin.
      destruct (stock_of w) as [z|] eqn:Hs; cbn [bind]; [|done].
      destruct (Py.remove _ ids) as [ids1|] eqn:Hrm; cbn [bind]; [|done].
      intros Hrest. destruct (IH _ _ Hrest) as (m & -> & Hm).
      exists (StockEntry (code w) z :: m). split; [by rewrite <- app_assoc|].
      constructor; [exists w; split_and!; by (done || left)|].
      eapply Forall_impl; [exact Hm|]. cbn.
      intros entry (w' & Hw' & Hc & Hid & Hst).
      exists w'. split_and!; [by right| |done|done].
      eapply elem_of_sublist; [done|]. by eapply remove_sublist.
    + intros Hrest. destruct (IH _ _ Hrest) as (m & -> & Hm).
      exists m. split; [done|].
      eapply Forall_impl; [exact Hm|]. cbn.
      intros entry (w' & Hw' & Hc & Hid & Hst).
      exists w'. split_and!; [by right|done|done|done].
Qed.

End CreateStocksMore.

(** Whenever [create_stocks] returns, there is one entry per element of the
    identifier list, however many rows the file has, and what is left in
    the caller's list is a subsequence of what it held. *)
Theorem create_stocks_one_entry_per_listing (ws : list watch)
    (ids : list string) (out : list stock_entry) (ids' : list string) :
  create_stocks ws ids = Ok (out, ids') →
  length out = length ids ∧ ids' `sublist_of` ids.
Proof.
  intros Hrun. split.
  - rewrite <- (length_fmap stock_offer_id out).
    apply Permutation_length. by eapply create_stocks_perm.
  - unfold create_stocks in Hrun.
    destruct (create_stocks_match ws [] ids) as [[stocks ids1]|] eqn:Hm;
      cbn [bind] in Hrun; [|done].
    injection Hrun as _ <-. by eapply create_stocks_match_sublist.
Qed.

Lemma create_stocks_one_entry_per_listing_witness :
  length [StockEntry "B" 100; StockEntry "B" 3; StockEntry "A" 0;
          StockEntry "C" 0]
  = length ["A"; "B"; "C"; "B"]
  ∧ ["A"; "C"] `sublist_of` ["A"; "B"; "C"; "B"].
Proof.
  apply (create_stocks_one_entry_per_listing
           [row (PyStr "B") (PyStr ">10") PyNone;
            row (PyStr "Z") (PyStr "n/a") PyNone;
            row (PyStr "B") (PyStr "3") PyNone;
            row (PyStr "B") (PyStr "4") PyNone]).
  by vm_compute.
Defined.





(** * The upload functions *)

Section Upload.
Implicit Types (ws : list watch) (fetched : list string).

Lemma divide_positive {A} (lst : list A) (n : Z) :
  0 < n →
  ∃ chunks,
    divide lst n = Ok chunks
    ∧ concat chunks = lst
    ∧ Forall (λ c, 1 ≤ Z.of_nat (length c) ≤ n) chunks
    ∧ Z.of_nat (length chunks) = (Z.of_nat (length lst) + n - 1) / n.
Proof.
  intros Hn. eexists. split; [by apply divide_chunks_at|].
  destruct (range_len_ceil (Z.of_nat (length lst)) n ltac:(lia) Hn)
    as (Hcnt & Hcover & _).
  split_and!.
  - rewrite concat_chunks_at. apply take_ge.
    apply Nat2Z.inj_le. rewrite Nat2Z.inj_mul, !Z2Nat.id; lia.
  - by apply chunks_at_sizes.
  - rewrite length_chunks_at, <- range_len_count by lia. by apply Z2Nat.id.
Qed.

Lemma create_stocks_from_rows ws fetched out ids' :
  create_stocks ws fetched = Ok (out, ids') →
  ∃ m, out = m ++ (zero_stock <$> ids')
       ∧ Forall (λ entry, ∃ w, w ∈ ws ∧ code w ∈ fetched
                           ∧ stock_offer_id entry = code w
                           ∧ stock_of w = Ok (stock entry)) m.
Proof.
  unfold create_stocks.
  destruct (create_stocks_match ws [] fetched) as [[stocks ids1]|] eqn:Hm;
    cbn [bind]; [|done].
  intros [= <- <-]. rewrite create_stocks_missing_app.
  apply create_stocks_match_from_rows in Hm as (m & -> & Hm). eauto.
Qed.

Lemma filter_zero_stock ids :
  filter (λ s, stock s ≠ 0) (zero_stock <$> ids) = [].
Proof.
  apply filter_none. intros entry Hentry.
  apply list_elem_of_fmap in Hentry as (id & -> & _). cbn. lia.
Qed.

End Upload.

(** When [create_stocks] returns, [upload_stocks] sends every entry once,
    in order, in requests of 1 to 100 entries: as many requests as the
    ceiling of the number of fetched identifiers over 100.  It returns the
    entries with a stock other than 0 next to the full list. *)
Theorem upload_stocks_batches (fetched : list string) (ws : list watch)
    (stocks : list stock_entry) (ids' : list string) :
  create_stocks ws fetched = Ok (stocks, ids') →
  ∃ chunks,
    upload_stocks fetched ws
      = Ok (UpdateStocks <$> chunks, (filter (λ s, stock s ≠ 0) stocks, stocks))
    ∧ concat chunks = stocks
    ∧ Forall (λ c, 1 ≤ Z.of_nat (length c) ≤ 100) chunks
    ∧ Z.of_nat (length chunks) = (Z.of_nat (length fetched) + 99) / 100.
Proof.
  intros Hrun.
  destruct (divide_positive stocks 100 ltac:(lia))
    as (chunks & Hdiv & Hcat & Hsize & Hcount).
  exists chunks. unfold upload_stocks. rewrite Hrun. cbn [bind]. rewrite Hdiv.
  cbn [bind]. split_and!; try done.
  assert (length stocks = length fetched) as Hlen.
  { rewrite <- (length_fmap stock_offer_id stocks).
    apply Permutation_length. by eapply create_stocks_perm. }
  rewrite Hcount, Hlen. f_equal. lia.
Qed.

Lemma upload_stocks_batches_witness :
  ∃ chunks,
    upload_stocks ["A"; "B"] [row (PyStr "B") (PyStr "7") PyNone]
      = Ok (UpdateStocks <$> chunks,
            (filter (λ s, stock s ≠ 0) [StockEntry "B" 7; StockEntry "A" 0],
             [StockEntry "B" 7; StockEntry "A" 0]))
    ∧ concat chunks = [StockEntry "B" 7; StockEntry "A" 0]
    ∧ Forall (λ c, 1 ≤ Z.of_nat (length c) ≤ 100) chunks
    ∧ Z.of_nat (length chunks) = (Z.of_nat (length ["A"; "B"]) + 99) / 100.
Proof.
  apply (upload_stocks_batches ["A"; "B"] [row (PyStr "B") (PyStr "7") PyNone]
           _ ["A"]).
  by vm_compute.
Defined.

(** The first list that [upload_stocks] returns holds only entries made
    from a row of the file: each has the code of a row that is a fetched
    identifier, the stock that row gives, and that stock is not 0.  An
    identifier that no row carries is never in it. *)
Theorem upload_stocks_not_empty (fetched : list string) (ws : list watch)
    (requests : list request) (not_empty stocks : list stock_entry) :
  upload_stocks fetched ws = Ok (requests, (not_empty, stocks)) →
  Forall (λ entry, stock entry ≠ 0
                   ∧ ∃ w, w ∈ ws ∧ code w ∈ fetched
                       ∧ stock_offer_id entry = code w
                       ∧ stock_of w = Ok (stock entry)) not_empty.
Proof.
  unfold upload_stocks.
  destruct (create_stocks ws fetched) as [[stocks' ids']|] eqn:Hrun;
    cbn [bind]; [|done].
  destruct (divide stocks' 100) as [chunks|]; cbn [bind]; [|done].
  intros [= _ <- <-].
  apply create_stocks_from_rows in Hrun as (m & -> & Hm).
  rewrite filter_app, filter_zero_stock, app_nil_r.
  apply Forall_forall. intros entry [Hnz Hin]%list_elem_of_filter.
  split; [done|]. rewrite Forall_forall in Hm. by apply Hm.
Qed.

Lemma upload_stocks_not_empty_witness :
  Forall (λ entry, stock entry ≠ 0
                   ∧ ∃ w, w ∈ [row (PyStr "B") (PyStr "7") PyNone;
                               row (PyStr "C") (PyStr "1") PyNone]
                       ∧ code w ∈ ["A"; "B"; "C"]
                       ∧ stock_offer_id entry = code w
                       ∧ stock_of w = Ok (stock entry))
    [StockEntry "B" 7].
Proof.
  apply (upload_stocks_not_empty ["A"; "B"; "C"]
           [row (PyStr "B") (PyStr "7") PyNone;
            row (PyStr "C") (PyStr "1") PyNone]
           [UpdateStocks [StockEntry "B" 7; StockEntry "C" 0; StockEntry "A" 0]]
           _ [StockEntry "B" 7; StockEntry "C" 0; StockEntry "A" 0]).
  by vm_compute.
Defined.

(** When [create_prices] returns, [upload_prices] sends every price entry
    once, in order, in requests of 1 to 1000 entries, and returns the list
    of entries; with no entry it sends nothing. *)
Theorem upload_prices_batches (fetched : list string) (ws : list watch)
    (prices : list price_entry) (ids' : list string) :
  create_prices ws fetched = Ok (prices, ids') →
  ∃ chunks,
    upload_prices fetched ws = Ok (UpdatePrice <$> chunks, prices)
    ∧ concat chunks = prices
    ∧ Forall (λ c, 1 ≤ Z.of_nat (length c) ≤ 1000) chunks
    ∧ Z.of_nat (length chunks) = (Z.of_nat (length prices) + 999) / 1000.
Proof.
  intros Hrun.
  destruct (divide_positive prices 1000 ltac:(lia))
    as (chunks & Hdiv & Hcat & Hsize & Hcount).
  exists chunks. unfold upload_prices. rewrite Hrun. cbn [bind]. rewrite Hdiv.
  cbn [bind]. split_and!; try done. rewrite Hcount. f_equal. lia.
Qed.

Lemma upload_prices_batches_witness :
  ∃ chunks,
    upload_prices ["A"; "B"]
      [row (PyStr "B") (PyStr "7") (PyStr "1'250.00 руб.");
       row (PyStr "C") (PyStr "2") (PyStr "10.00 руб.");
       row (PyStr "A") (PyStr "1") (PyStr "990.50 руб.")]
      = Ok (UpdatePrice <$> chunks,
            [PriceEntry "UNKNOWN" "RUB" "B" "0" "1250";
             PriceEntry "UNKNOWN" "RUB" "A" "0" "990"])
    ∧ concat chunks = [PriceEntry "UNKNOWN" "RUB" "B" "0" "1250";
                       PriceEntry "UNKNOWN" "RUB" "A" "0" "990"]
    ∧ Forall (λ c, 1 ≤ Z.of_nat (length c) ≤ 1000) chunks
    ∧ Z.of_nat (length chunks)
      = (Z.of_nat (length [PriceEntry "UNKNOWN" "RUB" "B" "0" "1250";
                           PriceEntry "UNKNOWN" "RUB" "A" "0" "990"]) + 999)
        / 1000.
Proof.
  apply (upload_prices_batches ["A"; "B"]
           [row (PyStr "B") (PyStr "7") (PyStr "1'250.00 руб.");
            row (PyStr "C") (PyStr "2") (PyStr "10.00 руб.");
            row (PyStr "A") (PyStr "1") (PyStr "990.50 руб.")]
           _ ["A"; "B"]).
  by vm_compute.
Defined.

Lemma main_sends_no_price_witness :
  UpdatePrice [PriceEntry "UNKNOWN" "RUB" "A" "0" "100"]
  ∉ (main ["A"; "B"] [row (PyStr "A") (PyStr "5") (PyStr "100.00 руб.")]).1.
Proof.
  apply main_sends_no_price. apply (bool_decide_unpack _). by vm_compute.
Defined.

(** * [main] over a transport that may fail *)

Section MainIo.
Implicit Types (transport : nat → option io_error) (requests : list request)
  (ws : list watch) (fetched : list string).

Lemma submit_all transport k requests :
  (∀ j, (k ≤ j < k + length requests)%nat → transport j = None) →
  submit transport k requests = (requests, None).
Proof.
  revert k. induction requests as [|r requests IH]; intros k Hok; [done|].
  cbn [submit]. rewrite Hok by (cbn; lia).
  rewrite IH; [done|]. intros j Hj. apply Hok. cbn. lia.
Qed.


Lemma submit_prefix transport k requests :
  (submit transport k requests).1 `prefix_of` requests.
Proof.
  revert k. induction requests as [|r requests IH]; intros k; [done|].
  cbn [submit]. destruct (transport k).
  - by exists requests.
  - specialize (IH (S k)). destruct (submit transport (S k) requests).
    by apply prefix_cons.
Qed.

Lemma Forall_prefix {A} (P : A → Prop) (l k : list A) :
  l `prefix_of` k → Forall P k → Forall P l.
Proof. intros [tl ->] Hk. by apply Forall_app in Hk as [? _]. Qed.

Lemma stock_requests_within_caps (chunks : list (list stock_entry)) :
  Forall (λ c, 1 ≤ Z.of_nat (length c) ≤ 100) chunks →
  Forall within_caps (UpdateStocks <$> chunks).
Proof. intros Hc. by apply Forall_fmap. Qed.

Lemma price_requests_within_caps (chunks : list (list price_entry)) :
  Forall (λ c, 1 ≤ Z.of_nat (length c) ≤ 900) chunks →
  Forall within_caps (UpdatePrice <$> chunks).
Proof. intros Hc. by apply Forall_fmap. Qed.

End MainIo.



(** If the transport fails none of the update requests, [main] over it
    attempts the requests of [main] and prints what [main] prints. *)
Theorem main_io_no_failure (transport : nat → option io_error)
    (fetched : list string) (ws : list watch) :
  (∀ j, (j < length (main fetched ws).1)%nat → transport j = None) →
  main_io transport fetched ws
    = ((main fetched ws).1, handler ∘ PyExn <$> (main fetched ws).2).
Proof.
  unfold main, main_io.
  destruct (create_stocks ws fetched) as [[stocks ids']|]; [|done].
  destruct (divide stocks 100) as [stock_chunks|]; [|done].
  set (stock_requests := UpdateStocks <$> stock_chunks).
  assert (length stock_requests = length stock_chunks) as Hlen
    by apply length_fmap.
  destruct (create_prices ws ids') as [[prices ids'']|].
  - destruct (divide prices 900) as [price_chunks|]; cbn [fst snd].
    + rewrite length_app. intros Hok.
      rewrite !submit_all; [done|intros j Hj; apply Hok; lia..].
    + intros Hok. by rewrite submit_all by (intros j Hj; apply Hok; lia).
  - cbn [fst snd]. intros Hok.
    by rewrite submit_all by (intros j Hj; apply Hok; lia).
Qed.

Lemma main_io_no_failure_witness :
  main_io (λ k, if decide (k = 1)%nat then Some ReadTimeout else None)
    ["A"] [row (PyStr "A") (PyStr "5") (PyStr "100.00 руб.")]
  = ((main ["A"] [row (PyStr "A") (PyStr "5") (PyStr "100.00 руб.")]).1,
     handler ∘ PyExn
       <$> (main ["A"] [row (PyStr "A") (PyStr "5") (PyStr "100.00 руб.")]).2).
Proof.
  apply (main_io_no_failure
           (λ k, if decide (k = 1)%nat then Some ReadTimeout else None)).
  intros j Hj. vm_compute in Hj. by replace j with 0%nat by lia.
Defined.

(** Whatever the transport does, every update request [main] attempts
    carries at least one entry, at most 100 stock entries, at most 900
    price entries. *)
Theorem main_io_requests_within_caps (transport : nat → option io_error)
    (fetched : list string) (ws : list watch) :
  Forall within_caps (main_io transport fetched ws).1.
Proof.
  unfold main_io.
  destruct (create_stocks ws fetched) as [[stocks ids']|]; [|by constructor].
  destruct (divide_positive stocks 100 ltac:(lia))
    as (stock_chunks & -> & _ & Hstock & _).
  apply stock_requests_within_caps in Hstock.
  pose proof (submit_prefix transport 0 (UpdateStocks <$> stock_chunks)) as Hpre.
  destruct (submit transport 0 _) as [sent [e|]]; cbn [fst] in *;
    [by eapply Forall_prefix|].
  assert (Forall within_caps sent) as Hsent by (by eapply Forall_prefix).
  destruct (create_prices ws ids') as [[prices ids'']|]; [|done].
  destruct (divide_positive prices 900 ltac:(lia))
    as (price_chunks & -> & _ & Hprice & _).
  apply price_requests_within_caps in Hprice.
  pose proof (submit_prefix transport (length stock_chunks)
                (UpdatePrice <$> price_chunks)) as Hpre'.
  destruct (submit transport (length stock_chunks) _) as [sent' err].
  cbn [fst] in *. apply Forall_app. split; [done|by eapply Forall_prefix].
Qed.

(** * The listing loop *)

Section GetOfferIds.
Implicit Types (server : nat → listing_reply) (fuel k c : nat).

Lemma gathered_S server n :
  gathered server (S n) = gathered server n ++ reply_items (server n).
Proof.
  unfold gathered. rewrite seq_S, fmap_app, concat_app. cbn.
  by rewrite app_nil_r.
Qed.

Lemma loop_carries_on server fuel c last :
  carries_on server c →
  get_offer_ids_loop (S fuel) server c last (gathered server c) =
    (last :: (get_offer_ids_loop fuel server (S c) (cursor server (S c))
                (gathered server (S c))).1,
     (get_offer_ids_loop fuel server (S c) (cursor server (S c))
        (gathered server (S c))).2).
Proof.
  intros (p & items & Hp & Hitems & Htotal). cbn [get_offer_ids_loop cursor].
  rewrite gathered_S in *. rewrite Hp in *. cbn [reply_items reply_last_id] in *.
  rewrite Hitems in *. rewrite Htotal.
  by destruct (get_offer_ids_loop fuel server (S c) _ _).
Qed.

Lemma loop_closes server fuel c last :
  closes server c →
  get_offer_ids_loop (S fuel) server c last (gathered server c) =
    ([last], Some (Done (gathered server (S c)))).
Proof.
  intros (p & items & Hp & Hitems & Htotal). cbn [get_offer_ids_loop].
  rewrite gathered_S in *. rewrite Hp in *. cbn [reply_items] in *.
  rewrite Hitems in *. by rewrite Htotal.
Qed.

Lemma loop_fails server fuel c last product_list f :
  reply_failure (server c) = Some f →
  get_offer_ids_loop (S fuel) server c last product_list =
    ([last], Some (Failed f)).
Proof.
  cbn [get_offer_ids_loop]. unfold reply_failure.
  destruct (server c) as [e| |p]; [by intros [= <-]..|].
  by destruct (page_items p); [|intros [= <-]].
Qed.

(** [k] requests that all carry on, then whatever the rest of the fuel
    does. *)
Lemma loop_run server k fuel c :
  (∀ j, (c ≤ j < c + k)%nat → carries_on server j) →
  get_offer_ids_loop (k + fuel) server c (cursor server c) (gathered server c) =
    ((cursor server <$> seq c k)
       ++ (get_offer_ids_loop fuel server (c + k) (cursor server (c + k))
             (gathered server (c + k))).1,
     (get_offer_ids_loop fuel server (c + k) (cursor server (c + k))
        (gathered server (c + k))).2).
Proof.
  revert c. induction k as [|k IH]; intros c Hon.
  - rewrite Nat.add_0_r. cbn. by destruct (get_offer_ids_loop _ _ _ _ _).
  - cbn [Nat.add]. rewrite loop_carries_on by (apply Hon; lia).
    rewrite IH by (intros j Hj; apply Hon; lia).
    cbn [fst snd seq fmap list_fmap]. by rewrite Nat.add_succ_r.
Qed.

Lemma get_offer_ids_run server k fuel :
  (∀ j, (j < k)%nat → carries_on server j) →
  get_offer_ids_loop (k + fuel) server 0 (PyStr "") [] =
    ((cursor server <$> seq 0 k)
       ++ (get_offer_ids_loop fuel server k (cursor server k)
             (gathered server k)).1,
     (get_offer_ids_loop fuel server k (cursor server k) (gathered server k)).2).
Proof.
  intros Hon. apply (loop_run server k fuel 0). intros j Hj. apply Hon. lia.
Qed.

End GetOfferIds.

(** [get_offer_ids] stops at the first reply whose total is the number of
    items gathered so far.  It then returns the [offer_id] of every item of
    the pages up to that one, in order, [None] for an item without the key;
    the first request has gone out with the empty cursor and each later one
    with the [last_id] of the page before. *)
Theorem get_offer_ids_returns (server : nat → listing_reply) (k fuel : nat) :
  (∀ j, (j < k)%nat → carries_on server j) →
  closes server k →
  (k < fuel)%nat →
  get_offer_ids fuel server
    = (cursor server <$> seq 0 (S k),
       Some (Done ((λ product, Py.get product "offer_id")
                     <$> gathered server (S k)))).
Proof.
  intros Hon Hclose Hfuel. unfold get_offer_ids.
  replace fuel with (k + S (fuel - S k))%nat by lia.
  rewrite get_offer_ids_run by done. rewrite loop_closes by done.
  cbn [fst snd]. by rewrite seq_S, fmap_app.
Qed.

Lemma get_offer_ids_returns_witness :
  get_offer_ids 5
    (λ k, match k with
          | O => ReplyPage (Page (Some [{["offer_id" := PyStr "A"]};
                                        {["offer_id" := PyStr "B"]}])
                              (PyInt 3) (PyStr "c1"))
          | _ => ReplyPage (Page (Some [{["id" := PyInt 7]}])
                              (PyInt 3) (PyStr "c2"))
          end)
  = ([PyStr ""; PyStr "c1"], Some (Done [PyStr "A"; PyStr "B"; PyNone])).
Proof.
  rewrite (get_offer_ids_returns _ 1 5).
  - by vm_compute.
  - intros j Hj. replace j with 0%nat by lia.
    eexists _, _. split_and!; [done|done|by vm_compute].
  - eexists _, _. split_and!; [done|done|by vm_compute].
  - lia.
Defined.

(** A reply that is not a page with items ends [get_offer_ids] with an
    exception and without a list, not even an empty one: the exception
    raised by [get_product_list], [AttributeError] when the response has no
    ["result"], [TypeError] when the result has no ["items"]. *)
Theorem get_offer_ids_fails (server : nat → listing_reply) (k fuel : nat)
    (f : failure) :
  (∀ j, (j < k)%nat → carries_on server j) →
  reply_failure (server k) = Some f →
  (k < fuel)%nat →
  get_offer_ids fuel server
    = (cursor server <$> seq 0 (S k), Some (Failed f)).
Proof.
  intros Hon Hfail Hfuel. unfold get_offer_ids.
  replace fuel with (k + S (fuel - S k))%nat by lia.
  rewrite get_offer_ids_run by done. rewrite (loop_fails _ _ _ _ _ f) by done.
  cbn [fst snd]. by rewrite seq_S, fmap_app.
Qed.

Lemma get_offer_ids_fails_witness :
  get_offer_ids 5
    (λ k, match k with
          | O => ReplyPage (Page (Some [{["offer_id" := PyStr "A"]}])
                              (PyInt 2) (PyStr "c1"))
          | _ => ReplyError HTTPError
          end)
  = ([PyStr ""; PyStr "c1"], Some (Failed (IoExn HTTPError))).
Proof.
  rewrite (get_offer_ids_fails _ 1 5 (IoExn HTTPError)).
  - by vm_compute.
  - intros j Hj. replace j with 0%nat by lia.
    eexists _, _. split_and!; [done|done|by vm_compute].
  - done.
  - lia.
Defined.

(** As long as every reply is a page with items whose total differs from
    the number of items gathered, [get_offer_ids] keeps asking: after any
    number of requests it has neither returned nor raised. *)
Theorem get_offer_ids_keeps_asking (server : nat → listing_reply) (fuel : nat) :
  (∀ j, (j < fuel)%nat → carries_on server j) →
  get_offer_ids fuel server = (cursor server <$> seq 0 fuel, None).
Proof.
  intros Hon. unfold get_offer_ids.
  replace fuel with (fuel + 0)%nat at 1 by lia.
  rewrite get_offer_ids_run by done. cbn. by rewrite app_nil_r.
Qed.

Lemma get_offer_ids_keeps_asking_witness :
  get_offer_ids 3
    (λ _, ReplyPage (Page (Some [{["offer_id" := PyStr "A"]};
                                 {["offer_id" := PyStr "B"]}])
                       (PyInt 1) (PyStr "c")))
  = ([PyStr ""; PyStr "c"; PyStr "c"], None).
Proof.
  rewrite (get_offer_ids_keeps_asking _ 3).
  - by vm_compute.
  - intros j Hj. eexists _, _. split_and!; [done|done|].
    destruct j as [|[|[|j]]]; [by vm_compute..|lia].
Defined.

(** * Quantities as the distributor writes them *)


